(** * drop: the WebRTC hook of the frontend (frontend/src/app/hooks/useWebRTC.ts)

    A shallow embedding of the React hook [useWebRTC]: the chunked file
    transfer engine ([sendFile], [handleIncomingData]), the signaling
    dispatch ([handleSignalingMessage]), [joinSession] and [cleanup].

    Conventions of the embedding.
    - The hook's React state and its refs are the fields of one record,
      [HookState]; every callback of the hook is a function on it.  A
      [setState] call is an immediate update.
    - JavaScript numbers that count bytes are integers ([Z]).  The
      percentage [progress] is a [number]: an exact rational, or one of the
      special values that a division by zero produces.  The rounding of
      double-precision arithmetic is not modelled.
    - A text that the code passes to [JSON.parse] is represented by what
      [JSON.parse] makes of it ([JsonText]), and [JSON.stringify v] by the
      text that parses to [v].  The fields of a parsed metadata object have
      the types that the hook declares for them.
    - A binary message is delivered as the ArrayBuffer that was sent.
    - The browser objects (RTCPeerConnection, the relay behind [fetch]) are
      external: the peer connection is an interface ([PeerConnectionAPI]),
      the answer of the relay is an argument of the callback that awaits it. *)

From Stdlib Require Import ZArith QArith List String Bool Lia.
From Stdlib Require Import Strings.Byte.
From Equations Require Import Equations.
Import ListNotations.

Local Open Scope Z_scope.

(** ** JavaScript numbers, as far as [progress] needs them *)

Module JsNumber.

Inductive number : Type :=
| NaN
| Infinity (negative : bool)
| Finite (q : Q).

Definition of_Z (z : Z) : number := Finite (inject_Z z).

(** [a / b] on integer operands: exact, with the IEEE results of a
    division by zero. *)
Definition div (a b : Z) : number :=
  if b =? 0 then
    if a =? 0 then NaN else Infinity (a <? 0)
  else Finite (Qred (Qmake (Z.sgn b * a) (Z.to_pos (Z.abs b)))).

Definition Qsign_neg (q : Q) : bool := Qnum q <? 0.

(** [x * y] *)
Definition mul (x y : number) : number :=
  match x, y with
  | NaN, _ | _, NaN => NaN
  | Finite p, Finite q => Finite (Qred (p * q))
  | Infinity s, Infinity t => Infinity (xorb s t)
  | Infinity s, Finite q | Finite q, Infinity s =>
      if Qnum q =? 0 then NaN else Infinity (xorb s (Qsign_neg q))
  end.

(** [0 <= x <= 100], false on NaN and on the infinities. *)
Definition in_percent_range (x : number) : Prop :=
  match x with
  | Finite q => (0 <= q /\ q <= 100)%Q
  | _ => False
  end.

End JsNumber.
Import JsNumber.

Arguments JsNumber.div : simpl never.
Arguments JsNumber.mul : simpl never.

(** ** Data of the hook *)

Definition bytes := list byte.

Definition byteLength (b : bytes) : Z := Z.of_nat (List.length b).

(** interface FileTransferProgress *)
Record FileTransferProgress : Type := {
  fileName : string;
  progress : number;
  totalSize : Z;
  transferredSize : Z;
  isReceiving : bool
}.

(** interface ReceivedFile *)
Record ReceivedFile : Type := {
  rf_name : string;
  rf_size : Z;
  rf_mimeType : string;
  rf_data : bytes
}.

(** The record behind the ref [receivingFile]. *)
Record ReceivingFile : Type := {
  rx_name : string;
  rx_size : Z;
  rx_mimeType : string;
  receivedSize : Z;
  chunks : list bytes
}.

(** The object literal [metadata] of [sendFile], and what the receiver
    reads back from it. *)
Record Metadata : Type := {
  md_type : string;
  md_name : string;
  md_size : Z;
  md_mimeType : string
}.

(** A browser [File]: [file.size] is the length of its contents. *)
Record File : Type := {
  file_name : string;
  file_type : string;
  file_contents : bytes
}.

Definition file_size (f : File) : Z := byteLength (file_contents f).

(** [blob.slice(start, end)] with the clamping of the File API. *)
Definition clamp_index (size i : Z) : Z :=
  if i <? 0 then Z.max (size + i) 0 else Z.min i size.

Definition slice (contents : bytes) (start stop : Z) : bytes :=
  let size := byteLength contents in
  let s := clamp_index size start in
  let e := clamp_index size stop in
  firstn (Z.to_nat (Z.max (e - s) 0)) (skipn (Z.to_nat s) contents).

(** *** JSON texts *)

Inductive JsValue : Type :=
| JNull
| JObject (o : Metadata)
| JOther.

(** A text, seen through [JSON.parse]: it is malformed, or it is the
    text of a value. *)
Inductive JsonText (V : Type) : Type :=
| Malformed
| Json (v : V).
Arguments Malformed {V}.
Arguments Json {V} v.

(** [JSON.parse]: [None] when it throws a SyntaxError. *)
Definition JSON_parse {V : Type} (t : JsonText V) : option V :=
  match t with
  | Malformed => None
  | Json v => Some v
  end.

Definition JSON_stringify {V : Type} (v : V) : JsonText V := Json v.

(** *** What arrives on, and is sent over, the data channel *)

Inductive ChannelData : Type :=
| DString (text : JsonText JsValue)
| DArrayBuffer (data : bytes)
| DBlob (data : bytes).

Inductive ReadyState : Type := Connecting | Open | Closing | Closed.

(** [pc.connectionState] *)
Inductive ConnectionState : Type :=
| StateNew
| StateConnecting
| StateConnected
| StateDisconnected
| StateFailed
| StateClosed.

Definition ReadyState_eqb (a b : ReadyState) : bool :=
  match a, b with
  | Connecting, Connecting | Open, Open | Closing, Closing | Closed, Closed => true
  | _, _ => false
  end.

(** An RTCDataChannel: its state and everything sent over it so far. *)
Record RTCDataChannel : Type := {
  readyState : ReadyState;
  sent : list ChannelData
}.

(** [channel.send(d)] throws unless the channel is open. *)
Definition channel_send (d : ChannelData) (ch : RTCDataChannel)
  : option RTCDataChannel :=
  if ReadyState_eqb (readyState ch) Open
  then Some {| readyState := Open; sent := sent ch ++ [d] |}
  else None.

Definition channel_close (ch : RTCDataChannel) : RTCDataChannel :=
  {| readyState := Closed; sent := sent ch |}.


(** ** The peer connection, an external collaborator

    The hook only calls the browser's RTCPeerConnection; what the calls do
    is the browser's business.  An operation that returns [None] is a call
    that throws, or whose promise rejects. *)

Class PeerConnectionAPI : Type := {
  RTCPeerConnection : Type;
  (** the objects that travel as signaling payloads: session descriptions
      and ICE candidates *)
  Descriptor : Type;
  pc_new : RTCPeerConnection;
  pc_close : RTCPeerConnection -> RTCPeerConnection;
  pc_setRemoteDescription :
    RTCPeerConnection -> Descriptor -> option RTCPeerConnection;
  pc_createAnswer : RTCPeerConnection -> option Descriptor;
  pc_setLocalDescription :
    RTCPeerConnection -> Descriptor -> option RTCPeerConnection;
  pc_addIceCandidate :
    RTCPeerConnection -> Descriptor -> option RTCPeerConnection
}.

Section Hook.

Context {API : PeerConnectionAPI}.

(** interface SignalingMessage *)
Record SignalingMessage : Type := {
  message_type : string;
  payload : JsonText Descriptor
}.

(** A request of the hook to the relay. *)
Inductive RelayRequest : Type :=
| PostSignal (session : string) (message : SignalingMessage)
| GetSignals (session : string).

(** *** The state of one hook instance

    The first five fields are the React state the hook returns, the next
    five its refs.  The rest is what the hook has done to its
    environment: the interval timers that are running, the requests made
    to the relay, and every value passed to [setTransferProgress]. *)
Record HookState : Type := {
  isConnected : bool;
  isConnecting : bool;
  transferProgress : option FileTransferProgress;
  error : option string;
  receivedFiles : list ReceivedFile;
  peerConnection : option RTCPeerConnection;
  dataChannel : option RTCDataChannel;
  sessionId : option string;
  pollingInterval : option positive;
  receivingFile : option ReceivingFile;
  timers : list positive;
  nextTimer : positive;
  relayRequests : list RelayRequest;
  progressLog : list (option FileTransferProgress)
}.

(** The state of a freshly mounted hook. *)
Definition initial : HookState := {|
  isConnected := false;
  isConnecting := false;
  transferProgress := None;
  error := None;
  receivedFiles := [];
  peerConnection := None;
  dataChannel := None;
  sessionId := None;
  pollingInterval := None;
  receivingFile := None;
  timers := [];
  nextTimer := 1%positive;
  relayRequests := [];
  progressLog := []
|}.

(** *** State setters and ref assignments *)

Definition setIsConnected (v : bool) (st : HookState) : HookState := {|
  isConnected := v;
  isConnecting := isConnecting st;
  transferProgress := transferProgress st;
  error := error st;
  receivedFiles := receivedFiles st;
  peerConnection := peerConnection st;
  dataChannel := dataChannel st;
  sessionId := sessionId st;
  pollingInterval := pollingInterval st;
  receivingFile := receivingFile st;
  timers := timers st;
  nextTimer := nextTimer st;
  relayRequests := relayRequests st;
  progressLog := progressLog st
|}.

Definition setIsConnecting (v : bool) (st : HookState) : HookState := {|
  isConnected := isConnected st;
  isConnecting := v;
  transferProgress := transferProgress st;
  error := error st;
  receivedFiles := receivedFiles st;
  peerConnection := peerConnection st;
  dataChannel := dataChannel st;
  sessionId := sessionId st;
  pollingInterval := pollingInterval st;
  receivingFile := receivingFile st;
  timers := timers st;
  nextTimer := nextTimer st;
  relayRequests := relayRequests st;
  progressLog := progressLog st
|}.

Definition setTransferProgress (v : option FileTransferProgress)
  (st : HookState) : HookState := {|
  isConnected := isConnected st;
  isConnecting := isConnecting st;
  transferProgress := v;
  error := error st;
  receivedFiles := receivedFiles st;
  peerConnection := peerConnection st;
  dataChannel := dataChannel st;
  sessionId := sessionId st;
  pollingInterval := pollingInterval st;
  receivingFile := receivingFile st;
  timers := timers st;
  nextTimer := nextTimer st;
  relayRequests := relayRequests st;
  progressLog := progressLog st ++ [v]
|}.

Definition setError (v : option string) (st : HookState) : HookState := {|
  isConnected := isConnected st;
  isConnecting := isConnecting st;
  transferProgress := transferProgress st;
  error := v;
  receivedFiles := receivedFiles st;
  peerConnection := peerConnection st;
  dataChannel := dataChannel st;
  sessionId := sessionId st;
  pollingInterval := pollingInterval st;
  receivingFile := receivingFile st;
  timers := timers st;
  nextTimer := nextTimer st;
  relayRequests := relayRequests st;
  progressLog := progressLog st
|}.

(** [setReceivedFiles(f)] with an updater function, as the hook calls it. *)
Definition setReceivedFiles (f : list ReceivedFile -> list ReceivedFile)
  (st : HookState) : HookState := {|
  isConnected := isConnected st;
  isConnecting := isConnecting st;
  transferProgress := transferProgress st;
  error := error st;
  receivedFiles := f (receivedFiles st);
  peerConnection := peerConnection st;
  dataChannel := dataChannel st;
  sessionId := sessionId st;
  pollingInterval := pollingInterval st;
  receivingFile := receivingFile st;
  timers := timers st;
  nextTimer := nextTimer st;
  relayRequests := relayRequests st;
  progressLog := progressLog st
|}.

Definition set_peerConnection (v : option RTCPeerConnection)
  (st : HookState) : HookState := {|
  isConnected := isConnected st;
  isConnecting := isConnecting st;
  transferProgress := transferProgress st;
  error := error st;
  receivedFiles := receivedFiles st;
  peerConnection := v;
  dataChannel := dataChannel st;
  sessionId := sessionId st;
  pollingInterval := pollingInterval st;
  receivingFile := receivingFile st;
  timers := timers st;
  nextTimer := nextTimer st;
  relayRequests := relayRequests st;
  progressLog := progressLog st
|}.

Definition set_dataChannel (v : option RTCDataChannel)
  (st : HookState) : HookState := {|
  isConnected := isConnected st;
  isConnecting := isConnecting st;
  transferProgress := transferProgress st;
  error := error st;
  receivedFiles := receivedFiles st;
  peerConnection := peerConnection st;
  dataChannel := v;
  sessionId := sessionId st;
  pollingInterval := pollingInterval st;
  receivingFile := receivingFile st;
  timers := timers st;
  nextTimer := nextTimer st;
  relayRequests := relayRequests st;
  progressLog := progressLog st
|}.

Definition set_sessionId (v : option string) (st : HookState) : HookState := {|
  isConnected := isConnected st;
  isConnecting := isConnecting st;
  transferProgress := transferProgress st;
  error := error st;
  receivedFiles := receivedFiles st;
  peerConnection := peerConnection st;
  dataChannel := dataChannel st;
  sessionId := v;
  pollingInterval := pollingInterval st;
  receivingFile := receivingFile st;
  timers := timers st;
  nextTimer := nextTimer st;
  relayRequests := relayRequests st;
  progressLog := progressLog st
|}.

Definition set_receivingFile (v : option ReceivingFile)
  (st : HookState) : HookState := {|
  isConnected := isConnected st;
  isConnecting := isConnecting st;
  transferProgress := transferProgress st;
  error := error st;
  receivedFiles := receivedFiles st;
  peerConnection := peerConnection st;
  dataChannel := dataChannel st;
  sessionId := sessionId st;
  pollingInterval := pollingInterval st;
  receivingFile := v;
  timers := timers st;
  nextTimer := nextTimer st;
  relayRequests := relayRequests st;
  progressLog := progressLog st
|}.

(** [fetch(...)]: the request leaves the hook. *)
Definition fetch (r : RelayRequest) (st : HookState) : HookState := {|
  isConnected := isConnected st;
  isConnecting := isConnecting st;
  transferProgress := transferProgress st;
  error := error st;
  receivedFiles := receivedFiles st;
  peerConnection := peerConnection st;
  dataChannel := dataChannel st;
  sessionId := sessionId st;
  pollingInterval := pollingInterval st;
  receivingFile := receivingFile st;
  timers := timers st;
  nextTimer := nextTimer st;
  relayRequests := relayRequests st ++ [r];
  progressLog := progressLog st
|}.

(** [pollingInterval.current = setInterval(..., 1000)]: a new timer
    runs, and the ref holds its id. *)
Definition setInterval (st : HookState) : HookState := {|
  isConnected := isConnected st;
  isConnecting := isConnecting st;
  transferProgress := transferProgress st;
  error := error st;
  receivedFiles := receivedFiles st;
  peerConnection := peerConnection st;
  dataChannel := dataChannel st;
  sessionId := sessionId st;
  pollingInterval := Some (nextTimer st);
  receivingFile := receivingFile st;
  timers := nextTimer st :: timers st;
  nextTimer := Pos.succ (nextTimer st);
  relayRequests := relayRequests st;
  progressLog := progressLog st
|}.

(** [clearInterval(id)]: the timer, if it runs, stops. *)
Definition clearInterval (id : positive) (st : HookState) : HookState := {|
  isConnected := isConnected st;
  isConnecting := isConnecting st;
  transferProgress := transferProgress st;
  error := error st;
  receivedFiles := receivedFiles st;
  peerConnection := peerConnection st;
  dataChannel := dataChannel st;
  sessionId := sessionId st;
  pollingInterval := pollingInterval st;
  receivingFile := receivingFile st;
  timers := remove Pos.eq_dec id (timers st);
  nextTimer := nextTimer st;
  relayRequests := relayRequests st;
  progressLog := progressLog st
|}.

(** *** Typed arrays *)

(** [new Uint8Array(n)]: [n] zero bytes. *)
Definition new_Uint8Array (n : Z) : bytes := repeat x00 (Z.to_nat n).

(** [target.set(source, offset)]: a RangeError ([None]) when the source
    does not fit. *)
Definition Uint8Array_set (target source : bytes) (offset : Z)
  : option bytes :=
  if (offset <? 0) || (byteLength target <? offset + byteLength source)
  then None
  else Some (firstn (Z.to_nat offset) target ++ source
             ++ skipn (Z.to_nat (offset + byteLength source)) target).

(** The loop [for (const chunk of chunks) { completeFile.set(chunk,
    offset); offset += chunk.length; }]. *)
Fixpoint copy_chunks (cs : list bytes) (completeFile : bytes) (offset : Z)
  : option bytes :=
  match cs with
  | [] => Some completeFile
  | chunk :: rest =>
      match Uint8Array_set completeFile chunk offset with
      | Some completeFile' =>
          copy_chunks rest completeFile' (offset + byteLength chunk)
      | None => None
      end
  end.

(** [chunks.reduce((sum, chunk) => sum + chunk.length, 0)] *)
Definition chunks_totalSize (cs : list bytes) : Z :=
  fold_left (fun sum chunk => sum + byteLength chunk) cs 0.

(** *** handleIncomingData *)

(** The branch of [handleIncomingData] for a binary message, entered
    with the record [rf] that [receivingFile.current] holds. *)
Definition receiveChunk (chunk : bytes) (rf : ReceivingFile)
  (st : HookState) : HookState :=
  let rf1 := {| rx_name := rx_name rf;
                rx_size := rx_size rf;
                rx_mimeType := rx_mimeType rf;
                receivedSize := receivedSize rf + byteLength chunk;
                chunks := chunks rf ++ [chunk] |} in
  let st1 := set_receivingFile (Some rf1) st in
  let progress := mul (div (receivedSize rf1) (rx_size rf1)) (of_Z 100) in
  let st2 := setTransferProgress
               (Some {| fileName := rx_name rf1;
                        progress := progress;
                        totalSize := rx_size rf1;
                        transferredSize := receivedSize rf1;
                        isReceiving := true |}) st1 in
  if rx_size rf1 <=? receivedSize rf1 then
    let totalSize := chunks_totalSize (chunks rf1) in
    match copy_chunks (chunks rf1) (new_Uint8Array totalSize) 0 with
    | Some completeFile =>
        let newFile := {| rf_name := rx_name rf1;
                          rf_size := rx_size rf1;
                          rf_mimeType := rx_mimeType rf1;
                          rf_data := completeFile |} in
        set_receivingFile None
          (setTransferProgress None
             (setReceivedFiles (fun prev => prev ++ [newFile]) st2))
    | None => st2
    end
  else st2.

Definition handleIncomingData (data : ChannelData) (st : HookState)
  : HookState :=
  match data with
  | DString text =>
      match JSON_parse text with
      | Some (JObject metadata) =>
          if String.eqb (md_type metadata) "metadata" then
            setTransferProgress
              (Some {| fileName := md_name metadata;
                       progress := of_Z 0;
                       totalSize := md_size metadata;
                       transferredSize := 0;
                       isReceiving := true |})
              (set_receivingFile
                 (Some {| rx_name := md_name metadata;
                          rx_size := md_size metadata;
                          rx_mimeType := md_mimeType metadata;
                          receivedSize := 0;
                          chunks := [] |}) st)
          else st
      | Some JOther => st   (* [metadata.type] is undefined *)
      | Some JNull => st    (* TypeError on [null.type], caught and logged *)
      | None => st          (* SyntaxError, caught and logged *)
      end
  | DArrayBuffer data =>
      match receivingFile st with
      | Some rf => receiveChunk data rf st
      | None => st
      end
  | DBlob _ => st
  end.

(** The messages of a channel, handled in the order of their arrival. *)
Definition receiveAll (frames : list ChannelData) (st : HookState)
  : HookState :=
  fold_left (fun s d => handleIncomingData d s) frames st.

(** *** sendFile *)

Inductive Exception : Type := Error (message : string).

Definition CHUNK_SIZE : Z := 16384.

(** The body of [reader.onload] up to and including [offset +=
    CHUNK_SIZE], for the slice read at [offset].  [None]: the guard of
    the handler is false, or [send] throws; the handler then changes
    nothing. *)
Definition onload_body (file : File) (offset transferredSize : Z)
  (st : HookState) : option HookState :=
  let result := slice (file_contents file) offset (offset + CHUNK_SIZE) in
  match dataChannel st with
  | Some ch =>
      match channel_send (DArrayBuffer result) ch with
      | Some ch' =>
          let transferredSize' := transferredSize + byteLength result in
          let progress :=
            mul (div transferredSize' (file_size file)) (of_Z 100) in
          Some (setTransferProgress
                  (Some {| fileName := file_name file;
                           progress := progress;
                           totalSize := file_size file;
                           transferredSize := transferredSize';
                           isReceiving := false |})
                  (set_dataChannel (Some ch') st))
      | None => None
      end
  | None => None
  end.

(** The chain of [reader.onload] events that [readNextChunk()] starts:
    each one sends the slice at [offset] and either reads the next
    slice or clears the progress. *)
Equations? reader_onload (file : File) (offset transferredSize : Z)
  (st : HookState) : HookState
  by wf (Z.to_nat (file_size file - offset)) lt :=
  reader_onload file offset transferredSize st
    with onload_body file offset transferredSize st := {
    | None := st
    | Some st'
        with Z_lt_dec (offset + CHUNK_SIZE) (file_size file) := {
        | left _ :=
            reader_onload file (offset + CHUNK_SIZE)
              (transferredSize
               + byteLength (slice (file_contents file) offset
                               (offset + CHUNK_SIZE)))
              st'
        | right _ := setTransferProgress None st' } }.
Proof. unfold CHUNK_SIZE in *. lia. Qed.

(** [sendFile], with the [reader.onload] events it starts run to their
    end.  The result is the exception thrown, if any, and the state left
    at that point. *)
Definition sendFile (file : File) (st : HookState)
  : option Exception * HookState :=
  match dataChannel st with
  | None => (Some (Error "Data channel not ready"), st)
  | Some ch =>
      if negb (ReadyState_eqb (readyState ch) Open)
      then (Some (Error "Data channel not ready"), st)
      else
        let totalSize := file_size file in
        let st1 := setTransferProgress
                     (Some {| fileName := file_name file;
                              progress := of_Z 0;
                              totalSize := totalSize;
                              transferredSize := 0;
                              isReceiving := false |}) st in
        let metadata := {| md_type := "metadata";
                           md_name := file_name file;
                           md_size := file_size file;
                           md_mimeType := file_type file |} in
        match channel_send (DString (JSON_stringify (JObject metadata))) ch
        with
        | Some ch' =>
            (None, reader_onload file 0 0 (set_dataChannel (Some ch') st1))
        | None => (Some (Error "InvalidStateError"), st1)
        end
  end.

(** *** Signaling *)

(** A string in a condition: the empty string is falsy. *)
Definition truthy (s : string) : bool := negb (String.eqb s "").

(** [sendSignalingMessage]; [response_ok] is false when [fetch] rejects
    or the relay answers with an error status. *)
Definition sendSignalingMessage (response_ok : bool)
  (message : SignalingMessage) (st : HookState) : HookState :=
  match sessionId st with
  | None => st
  | Some id =>
      if truthy id then
        let st1 := fetch (PostSignal id message) st in
        if response_ok then st1
        else setError (Some "Failed to send signaling message"%string) st1
      else st
  end.

(** [startPolling] *)
Definition startPolling (st : HookState) : HookState :=
  match sessionId st with
  | None => st
  | Some id => if truthy id then setInterval st else st
  end.

(** The [catch] of [handleSignalingMessage]. *)
Definition signaling_failed (st : HookState) : HookState :=
  setError (Some "Failed to handle signaling message"%string) st.

(** [handleSignalingMessage]; [response_ok] is the outcome of the
    request that carries the answer back, when one is made. *)
Definition handleSignalingMessage (response_ok : bool)
  (message : SignalingMessage) (st : HookState) : HookState :=
  match peerConnection st with
  | None => st
  | Some pc =>
      if String.eqb (message_type message) "offer" then
        match JSON_parse (payload message) with
        | None => signaling_failed st
        | Some offer =>
        match pc_setRemoteDescription pc offer with
        | None => signaling_failed st
        | Some pc1 =>
        match pc_createAnswer pc1 with
        | None => signaling_failed (set_peerConnection (Some pc1) st)
        | Some answer =>
        match pc_setLocalDescription pc1 answer with
        | None => signaling_failed (set_peerConnection (Some pc1) st)
        | Some pc2 =>
            sendSignalingMessage response_ok
              {| message_type := "answer";
                 payload := JSON_stringify answer |}
              (set_peerConnection (Some pc2) st)
        end end end end
      else if String.eqb (message_type message) "answer" then
        match JSON_parse (payload message) with
        | None => signaling_failed st
        | Some answerDesc =>
        match pc_setRemoteDescription pc answerDesc with
        | None => signaling_failed st
        | Some pc1 => set_peerConnection (Some pc1) st
        end end
      else if String.eqb (message_type message) "candidate" then
        match JSON_parse (payload message) with
        | None => signaling_failed st
        | Some candidate =>
        match pc_addIceCandidate pc candidate with
        | None => signaling_failed st
        | Some pc1 => set_peerConnection (Some pc1) st
        end end
      else st
  end.

(** The messages of one poll, dispatched in the order of the queue. *)
Definition handleAll (response_ok : bool)
  (messages : list SignalingMessage) (st : HookState) : HookState :=
  fold_left (fun s m => handleSignalingMessage response_ok m s) messages st.

(** The callback of the polling interval.  [response] is what the relay
    returns: the queued messages, or [None] when the request fails. *)
Definition polling_tick (response : option (list SignalingMessage))
  (response_ok : bool) (st : HookState) : HookState :=
  let id := match sessionId st with
            | Some id => id
            | None => "null"%string
            end in
  let st1 := fetch (GetSignals id) st in
  match response with
  | Some messages => handleAll response_ok messages st1
  | None => st1
  end.

(** *** Sessions *)

(** [initializePeerConnection] *)
Definition initializePeerConnection (st : HookState) : HookState :=
  set_peerConnection (Some pc_new) st.

(** [setupDataChannel] *)
Definition setupDataChannel (channel : RTCDataChannel) (st : HookState)
  : HookState :=
  set_dataChannel (Some channel) st.

(** [channel.onopen]: the browser has opened the channel. *)
Definition channel_onopen (st : HookState) : HookState :=
  match dataChannel st with
  | Some ch =>
      setIsConnecting false
        (setIsConnected true
           (set_dataChannel
              (Some {| readyState := Open; sent := sent ch |}) st))
  | None => st
  end.

(** [pc.onconnectionstatechange], for the state the browser reports. *)
Definition onconnectionstatechange (connectionState : ConnectionState)
  (st : HookState) : HookState :=
  let st1 := setIsConnected
               (match connectionState with
                | StateConnected => true
                | _ => false
                end) st in
  let st2 := setIsConnecting
               (match connectionState with
                | StateConnecting => true
                | _ => false
                end) st1 in
  match connectionState with
  | StateFailed | StateDisconnected =>
      setIsConnecting false (setError (Some "Connection failed"%string) st2)
  | _ => st2
  end.

(** [joinSession]: the value returned and the state left. *)
Definition joinSession (code : string) (st : HookState)
  : string * HookState :=
  let st1 := setIsConnecting true st in
  let st2 := setError None st1 in
  let st3 := set_sessionId (Some code) st2 in
  let st4 := initializePeerConnection st3 in
  let st5 := startPolling st4 in
  (code, st5).

(** *** cleanup *)

Definition cleanup (st : HookState) : HookState :=
  let st1 := match pollingInterval st with
             | Some id => clearInterval id st
             | None => st
             end in
  let st2 := match dataChannel st1 with
             | Some ch => set_dataChannel (Some (channel_close ch)) st1
             | None => st1
             end in
  let st3 := match peerConnection st2 with
             | Some pc => set_peerConnection (Some (pc_close pc)) st2
             | None => st2
             end in
  let st4 := setIsConnected false st3 in
  let st5 := setIsConnecting false st4 in
  let st6 := setTransferProgress None st5 in
  let st7 := setReceivedFiles (fun _ => []) st6 in
  let st8 := set_sessionId None st7 in
  set_receivingFile None st8.

(** The state of the hook without the history of its
    [setTransferProgress] calls. *)
Definition forget_history (st : HookState) : HookState := {|
  isConnected := isConnected st;
  isConnecting := isConnecting st;
  transferProgress := transferProgress st;
  error := error st;
  receivedFiles := receivedFiles st;
  peerConnection := peerConnection st;
  dataChannel := dataChannel st;
  sessionId := sessionId st;
  pollingInterval := pollingInterval st;
  receivingFile := receivingFile st;
  timers := timers st;
  nextTimer := nextTimer st;
  relayRequests := relayRequests st;
  progressLog := []
|}.

(** *** The transfer, described

    The slices that the read loop takes from [offset] on, and the
    progress values that a run of chunks produces. *)
Equations? file_chunks (contents : bytes) (offset : Z) : list bytes
  by wf (Z.to_nat (byteLength contents - offset)) lt :=
  file_chunks contents offset
    with Z_lt_dec (offset + CHUNK_SIZE) (byteLength contents) := {
    | left _ :=
        slice contents offset (offset + CHUNK_SIZE)
        :: file_chunks contents (offset + CHUNK_SIZE)
    | right _ := [slice contents offset (offset + CHUNK_SIZE)] }.
Proof. unfold CHUNK_SIZE in *. lia. Qed.

Definition total_length (cs : list bytes) : Z :=
  fold_right (fun c n => byteLength c + n) 0 cs.

Fixpoint progress_entries (name : string) (total : Z) (receiving : bool)
  (transferred : Z) (cs : list bytes) : list FileTransferProgress :=
  match cs with
  | [] => []
  | c :: rest =>
      let t := transferred + byteLength c in
      {| fileName := name;
         progress := mul (div t total) (of_Z 100);
         totalSize := total;
         transferredSize := t;
         isReceiving := receiving |}
      :: progress_entries name total receiving t rest
  end.

(** The percentage is the one derived from the two sizes, and it is
    between 0 and 100. *)
Definition progress_derived (p : FileTransferProgress) : Prop :=
  progress p = mul (div (transferredSize p) (totalSize p)) (of_Z 100)
  /\ in_percent_range (progress p).

Fixpoint nondecreasing (l : list Z) : Prop :=
  match l with
  | [] => True
  | x :: rest =>
      match rest with
      | [] => True
      | y :: _ => x <= y
      end /\ nondecreasing rest
  end.

(** The record of the receive after the chunks [cs] have been added. *)
Definition received_more (rf : ReceivingFile) (cs : list bytes)
  : ReceivingFile :=
  {| rx_name := rx_name rf;
     rx_size := rx_size rf;
     rx_mimeType := rx_mimeType rf;
     receivedSize := receivedSize rf + total_length cs;
     chunks := chunks rf ++ cs |}.

End Hook.

Arguments HookState : clear implicits.
Arguments SignalingMessage : clear implicits.
Arguments RelayRequest : clear implicits.

(** ** A browser

    An RTCPeerConnection reduced to what the hook's calls consult and
    change: whether it is closed, the descriptions applied and the
    candidates added.  As in the WebRTC API, [addIceCandidate] rejects while
    no remote description is set, [createAnswer] needs a remote offer, and
    every call on a closed connection rejects. *)

Module Browser.

Record Connection : Type := {
  closed : bool;
  remoteDescription : option string;
  localDescription : option string;
  candidates : list string
}.

Definition create : Connection := {|
  closed := false;
  remoteDescription := None;
  localDescription := None;
  candidates := []
|}.

Definition close (pc : Connection) : Connection := {|
  closed := true;
  remoteDescription := remoteDescription pc;
  localDescription := localDescription pc;
  candidates := candidates pc
|}.

Definition setRemoteDescription (pc : Connection) (d : string)
  : option Connection :=
  if closed pc then None
  else Some {| closed := false;
               remoteDescription := Some d;
               localDescription := localDescription pc;
               candidates := candidates pc |}.

Definition createAnswer (pc : Connection) : option string :=
  if closed pc then None
  else match remoteDescription pc with
       | Some offer => Some ("answer to " ++ offer)%string
       | None => None
       end.

Definition setLocalDescription (pc : Connection) (d : string)
  : option Connection :=
  if closed pc then None
  else Some {| closed := false;
               remoteDescription := remoteDescription pc;
               localDescription := Some d;
               candidates := candidates pc |}.

Definition addIceCandidate (pc : Connection) (c : string)
  : option Connection :=
  if closed pc then None
  else match remoteDescription pc with
       | Some _ => Some {| closed := false;
                           remoteDescription := remoteDescription pc;
                           localDescription := localDescription pc;
                           candidates := candidates pc ++ [c] |}
       | None => None
       end.

#[export] Instance api : PeerConnectionAPI := {|
  RTCPeerConnection := Connection;
  Descriptor := string;
  pc_new := create;
  pc_close := close;
  pc_setRemoteDescription := setRemoteDescription;
  pc_createAnswer := createAnswer;
  pc_setLocalDescription := setLocalDescription;
  pc_addIceCandidate := addIceCandidate
|}.

End Browser.

(** The values passed to [setTransferProgress] during one transfer, as
    they should be: percentages derived from the sizes and within range,
    transferred sizes that never decrease, 100 as the last percentage,
    and then the clearing [null]. *)
Definition progress_history_ok (log : list (option FileTransferProgress))
  : Prop :=
  exists (ps : list FileTransferProgress) (p_final : FileTransferProgress),
    log = map Some (ps ++ [p_final]) ++ [None]
    /\ Forall progress_derived (ps ++ [p_final])
    /\ nondecreasing (map transferredSize (ps ++ [p_final]))
    /\ progress p_final = of_Z 100.

(** The file that a completed receive of [file] adds to [receivedFiles]. *)
Definition received_copy (file : File) : ReceivedFile :=
  {| rf_name := file_name file;
     rf_size := file_size file;
     rf_mimeType := file_type file;
     rf_data := file_contents file |}.

(** The metadata message that [sendFile] sends for [file]. *)
Definition metadata_message (file : File) : ChannelData :=
  DString (JSON_stringify
             (JObject {| md_type := "metadata";
                         md_name := file_name file;
                         md_size := file_size file;
                         md_mimeType := file_type file |})).

(** ** The rest of the hook: events of the browser and createSession *)

(** What [createSession] asks of a connection beyond [PeerConnectionAPI].
    A data channel that has just been created is connecting and has sent
    nothing. *)
Class OfferAPI {API : PeerConnectionAPI} : Type := {
  pc_createDataChannel : RTCPeerConnection -> option RTCPeerConnection;
  pc_createOffer : RTCPeerConnection -> option Descriptor
}.

Section Events.

Context {API : PeerConnectionAPI}.

(** [channel.onerror] *)
Definition channel_onerror (st : HookState API) : HookState API :=
  setError (Some "Data channel error"%string) st.

(** [pc.onicecandidate]; the candidate of the event is null when the
    gathering has ended. *)
Definition onicecandidate (response_ok : bool)
  (candidate : option Descriptor) (st : HookState API) : HookState API :=
  match candidate, sessionId st with
  | Some c, Some id =>
      if truthy id then
        sendSignalingMessage response_ok
          {| message_type := "candidate"; payload := JSON_stringify c |} st
      else st
  | _, _ => st
  end.

(** A FileReader of [sendFile] with a read under way: the variables
    [offset] and [transferredSize] of the call that owns it. *)
Record Reader : Type := {
  reader_file : File;
  reader_offset : Z;
  reader_transferred : Z
}.

(** One [reader.onload] event: the state it leaves, and the reader when
    it has started the next read. *)
Definition onload_event (r : Reader) (st : HookState API)
  : HookState API * option Reader :=
  let file := reader_file r in
  let offset := reader_offset r in
  match onload_body file offset (reader_transferred r) st with
  | None => (st, None)
  | Some st' =>
      if Z_lt_dec (offset + CHUNK_SIZE) (file_size file) then
        (st',
         Some {| reader_file := file;
                 reader_offset := offset + CHUNK_SIZE;
                 reader_transferred :=
                   reader_transferred r
                   + byteLength (slice (file_contents file) offset
                                   (offset + CHUNK_SIZE)) |})
      else (setTransferProgress None st', None)
  end.

(** [sendFile] up to the point where its promise resolves: the first read
    has been started and no [onload] has run yet. *)
Definition sendFile_sync (file : File) (st : HookState API)
  : option Exception * HookState API * option Reader :=
  match dataChannel st with
  | None => (Some (Error "Data channel not ready"), st, None)
  | Some ch =>
      if negb (ReadyState_eqb (readyState ch) Open)
      then (Some (Error "Data channel not ready"), st, None)
      else
        let totalSize := file_size file in
        let st1 := setTransferProgress
                     (Some {| fileName := file_name file;
                              progress := of_Z 0;
                              totalSize := totalSize;
                              transferredSize := 0;
                              isReceiving := false |}) st in
        let metadata := {| md_type := "metadata";
                           md_name := file_name file;
                           md_size := file_size file;
                           md_mimeType := file_type file |} in
        match channel_send (DString (JSON_stringify (JObject metadata))) ch
        with
        | Some ch' =>
            (None, set_dataChannel (Some ch') st1,
             Some {| reader_file := file;
                     reader_offset := 0;
                     reader_transferred := 0 |})
        | None => (Some (Error "InvalidStateError"), st1, None)
        end
  end.

(** The readers of several [sendFile] calls, and the [onload] events of
    the browser in the order in which it happens to deliver them: each
    element of the schedule names the reader whose read has finished. *)
Fixpoint replace_nth {A : Type} (n : nat) (x : A) (l : list A) : list A :=
  match l, n with
  | [], _ => []
  | _ :: rest, O => x :: rest
  | y :: rest, S n' => y :: replace_nth n' x rest
  end.

Definition load_event (i : nat) (readers : list (option Reader))
  (st : HookState API) : HookState API * list (option Reader) :=
  match nth_error readers i with
  | Some (Some r) =>
      (fst (onload_event r st), replace_nth i (snd (onload_event r st)) readers)
  | _ => (st, readers)
  end.

Fixpoint run_events (schedule : list nat) (readers : list (option Reader))
  (st : HookState API) : HookState API * list (option Reader) :=
  match schedule with
  | [] => (st, readers)
  | i :: rest =>
      run_events rest (snd (load_event i readers st))
        (fst (load_event i readers st))
  end.

(** *** createSession *)

Context {Offer : OfferAPI}.

(** The [catch] of [createSession]. *)
Definition createSession_failed (st : HookState API) : HookState API :=
  setIsConnecting false (setError (Some "Failed to create session"%string) st).

(** [createSession]: the session id returned, or [None] when the call
    throws, and the state left.  [create_response] is the session id in
    the answer of the relay, [None] when the request fails or is refused;
    [offer_ok] is the outcome of the request that carries the offer.  The
    request that creates the session is seen through its answer only:
    [relayRequests] lists the requests made to a session. *)
Definition createSession (create_response : option string) (offer_ok : bool)
  (st : HookState API) : option string * HookState API :=
  let st1 := setIsConnecting true st in
  let st2 := setError None st1 in
  match create_response with
  | None => (None, createSession_failed st2)
  | Some session_id =>
  let st3 := set_sessionId (Some session_id) st2 in
  let st4 := initializePeerConnection st3 in
  match pc_createDataChannel pc_new with
  | None => (None, createSession_failed st4)
  | Some pc1 =>
  let st5 := setupDataChannel {| readyState := Connecting; sent := [] |}
               (set_peerConnection (Some pc1) st4) in
  match pc_createOffer pc1 with
  | None => (None, createSession_failed st5)
  | Some offer =>
  match pc_setLocalDescription pc1 offer with
  | None => (None, createSession_failed st5)
  | Some pc2 =>
      let st6 := set_peerConnection (Some pc2) st5 in
      let st7 := sendSignalingMessage offer_ok
                   {| message_type := "offer";
                      payload := JSON_stringify offer |} st6 in
      (Some session_id, startPolling st7)
  end end end end.

(** ** The page (frontend/src/app/page.tsx) *)

(** interface FileItem *)
Record FileItem : Type := {
  fi_id : string;
  fi_name : string;
  fi_size : Z;
  fi_type : string;
  fi_file : File
}.

(** The state of the component [Home]: its own, and that of its hook. *)
Record Home : Type := {
  files : list FileItem;
  isDragging : bool;
  shareCode : string;
  joinCode : string;
  hook : HookState API
}.

Definition setFiles (f : list FileItem -> list FileItem) (h : Home) : Home :=
  {| files := f (files h); isDragging := isDragging h;
     shareCode := shareCode h; joinCode := joinCode h; hook := hook h |}.

Definition setIsDragging (v : bool) (h : Home) : Home :=
  {| files := files h; isDragging := v;
     shareCode := shareCode h; joinCode := joinCode h; hook := hook h |}.

Definition setShareCode (v : string) (h : Home) : Home :=
  {| files := files h; isDragging := isDragging h;
     shareCode := v; joinCode := joinCode h; hook := hook h |}.

Definition setJoinCode (v : string) (h : Home) : Home :=
  {| files := files h; isDragging := isDragging h;
     shareCode := shareCode h; joinCode := v; hook := hook h |}.

Definition with_hook (st : HookState API) (h : Home) : Home :=
  {| files := files h; isDragging := isDragging h;
     shareCode := shareCode h; joinCode := joinCode h; hook := st |}.

(** [handleFileSelect]; every selected file comes with the identifier
    that [crypto.randomUUID()] draws for it. *)
Definition handleFileSelect (selectedFiles : list (string * File)) (h : Home)
  : Home :=
  let newFiles :=
    map (fun sel =>
           {| fi_id := fst sel;
              fi_name := file_name (snd sel);
              fi_size := file_size (snd sel);
              fi_type := file_type (snd sel);
              fi_file := snd sel |}) selectedFiles in
  setFiles (fun prev => prev ++ newFiles) h.

(** [handleDrop]; [dataTransfer_files] is [e.dataTransfer.files]. *)
Definition handleDrop (dataTransfer_files : option (list (string * File)))
  (h : Home) : Home :=
  match dataTransfer_files with
  | Some selected => handleFileSelect selected (setIsDragging false h)
  | None => setIsDragging false h
  end.

Definition handleDragOver (h : Home) : Home := setIsDragging true h.

Definition handleDragLeave (h : Home) : Home := setIsDragging false h.

(** [removeFile] *)
Definition removeFile (fileId : string) (h : Home) : Home :=
  setFiles (filter (fun f => negb (String.eqb (fi_id f) fileId))) h.

(** [String.prototype.trim], for strings of code units below 256. *)
Definition isWhiteSpace (c : Ascii.ascii) : bool :=
  let n := Ascii.nat_of_ascii c in
  ((9 <=? n)%nat && (n <=? 13)%nat) || (n =? 32)%nat || (n =? 160)%nat.

Fixpoint trimStart (s : string) : string :=
  match s with
  | EmptyString => EmptyString
  | String c rest => if isWhiteSpace c then trimStart rest else s
  end.

Fixpoint trimEnd (s : string) : string :=
  match s with
  | EmptyString => EmptyString
  | String c rest =>
      match trimEnd rest with
      | EmptyString => if isWhiteSpace c then EmptyString
                       else String c EmptyString
      | rest' => String c rest'
      end
  end.

Definition trim (s : string) : string := trimEnd (trimStart s).

(** [handleJoinSession] *)
Definition handleJoinSession (h : Home) : Home :=
  if truthy (trim (joinCode h))
  then with_hook (snd (joinSession (joinCode h) (hook h))) h
  else h.

(** [generateShareCode]; the arguments are those of [createSession]. *)
Definition generateShareCode (create_response : option string)
  (offer_ok : bool) (h : Home) : Home :=
  match createSession create_response offer_ok (hook h) with
  | (Some sessionId, st) => setShareCode sessionId (with_hook st h)
  | (None, st) => with_hook st h
  end.

(** The loop of [handleSendFiles]: every [await sendFile(...)] resumes
    before any [onload] event can run, so the calls follow each other
    directly; an exception is caught and logged. *)
Fixpoint sendFiles_loop (items : list FileItem) (st : HookState API)
  : HookState API * list (option Reader) :=
  match items with
  | [] => (st, [])
  | fileItem :: rest =>
      let '(_, st', reader) := sendFile_sync (fi_file fileItem) st in
      (fst (sendFiles_loop rest st'), reader :: snd (sendFiles_loop rest st'))
  end.

(** [handleSendFiles]: the state when the handler has ended, and the
    readers whose [onload] events are still to come. *)
Definition handleSendFiles (h : Home) : Home * list (option Reader) :=
  if negb (isConnected (hook h)) || (List.length (files h) =? 0)%nat
  then (h, [])
  else (with_hook (fst (sendFiles_loop (files h) (hook h))) h,
        snd (sendFiles_loop (files h) (hook h))).

(** [resetSession] *)
Definition resetSession (h : Home) : Home :=
  setFiles (fun _ => [])
    (setJoinCode "" (setShareCode "" (with_hook (cleanup (hook h)) h))).

End Events.

Arguments Home : clear implicits.

(** The browser of [Browser], for [createSession]. *)
Module BrowserOffer.

Import Browser.

Definition createDataChannel (pc : Connection) : option Connection :=
  if closed pc then None else Some pc.

Definition createOffer (pc : Connection) : option string :=
  if closed pc then None else Some "offer"%string.

#[export] Instance offer_api : OfferAPI := {|
  pc_createDataChannel := createDataChannel;
  pc_createOffer := createOffer
|}.

End BrowserOffer.

(** The messages that start a receive: texts that parse to an object
    whose [type] is "metadata". *)
Definition is_metadata (d : ChannelData) : bool :=
  match d with
  | DString (Json (JObject o)) => String.eqb (md_type o) "metadata"
  | _ => false
  end.

(** The number of receives that a state and a run of messages can
    complete: one for the active record, one for each metadata message. *)
Definition receives_open {API : PeerConnectionAPI} (st : HookState API)
  (frames : list ChannelData) : nat :=
  (match receivingFile st with Some _ => 1 | None => 0 end
   + List.length (filter is_metadata frames))%nat.

(** The record of a receive counts the bytes of its chunks. *)
Definition record_consistent {API : PeerConnectionAPI} (st : HookState API)
  : Prop :=
  match receivingFile st with
  | Some rf => receivedSize rf = total_length (chunks rf)
  | None => True
  end.

(** No file in [receivedFiles] holds fewer bytes than its size says. *)
Definition files_complete {API : PeerConnectionAPI} (st : HookState API)
  : Prop :=
  Forall (fun f => rf_size f <= byteLength (rf_data f)) (receivedFiles st).

(** Everything in the state of the hook that belongs to the transfer and
    to the session, that is, all but the peer connection, the error and
    the requests made. *)
Definition transfer_side {API : PeerConnectionAPI} (st : HookState API) :=
  (isConnected st, isConnecting st, transferProgress st, receivedFiles st,
   dataChannel st, sessionId st, pollingInterval st, receivingFile st,
   timers st, nextTimer st, progressLog st).

(** A request that posts an answer to the session [session]. *)
Definition is_answer_post {API : PeerConnectionAPI}
  (session : option string) (r : RelayRequest API) : Prop :=
  exists (id : string) (answer : Descriptor),
    session = Some id /\ id <> ""%string
    /\ r = PostSignal id {| message_type := "answer";
                            payload := JSON_stringify answer |}.

(** The messages of a poll that are offers. *)
Definition offers {API : PeerConnectionAPI}
  (messages : list (SignalingMessage API)) : list (SignalingMessage API) :=
  filter (fun m => String.eqb (message_type m) "offer") messages.

(** A string of white space only. *)
Fixpoint blank (s : string) : bool :=
  match s with
  | EmptyString => true
  | String c rest => isWhiteSpace c && blank rest
  end.

(** ** Sample states and inputs *)

Module Samples.

Import Browser.

(** A sender whose data channel has been set up and has opened. *)
Definition sender_ready : HookState api :=
  channel_onopen
    (setupDataChannel {| readyState := Connecting; sent := [] |} initial).

(** A sender whose data channel is still connecting. *)
Definition sender_waiting : HookState api :=
  setupDataChannel {| readyState := Connecting; sent := [] |} initial.

Definition small_file : File :=
  {| file_name := "a.txt"; file_type := "text/plain";
     file_contents := [x01; x02; x03] |}.

Definition empty_file : File :=
  {| file_name := "empty"; file_type := ""; file_contents := [] |}.

Definition metadata_of (name : string) (size : Z) : Metadata :=
  {| md_type := "metadata"; md_name := name; md_size := size;
     md_mimeType := "text/plain" |}.

(** A receiver in the middle of a file: 4 of 10 bytes have arrived. *)
Definition receiver_midway : HookState api :=
  receiveAll
    [DString (Json (JObject (metadata_of "first.txt" 10)));
     DArrayBuffer [x01; x02; x03; x04]]
    initial.

(** A receiver that has joined the session AB12CD. *)
Definition joined : HookState api := snd (joinSession "AB12CD" initial).

Definition candidate_message : SignalingMessage api :=
  {| message_type := "candidate"; payload := Json "candidate:1"%string |}.

Definition offer_message : SignalingMessage api :=
  {| message_type := "offer"; payload := Json "offer"%string |}.

(** A receiver whose connection attempt has failed. *)
Definition connection_failed : HookState api :=
  onconnectionstatechange StateFailed joined.

(** A message of eight bytes. *)
Definition eight_bytes : bytes := [x01; x02; x03; x04; x05; x06; x07; x08].

(** A file of 40000 bytes. *)
Definition large_file : File :=
  {| file_name := "large.bin"; file_type := "application/octet-stream";
     file_contents := repeat x2a (Z.to_nat 40000) |}.

End Samples.


(** ** Sample pages *)

Module PageSamples.

Import Browser Samples.

Definition first_item : FileItem :=
  {| fi_id := "id-1"; fi_name := "a.txt"; fi_size := 3;
     fi_type := "text/plain"; fi_file := small_file |}.

Definition second_item : FileItem :=
  {| fi_id := "id-2"; fi_name := "empty"; fi_size := 0;
     fi_type := ""; fi_file := empty_file |}.

(** A page with two files selected, connected, its channel open. *)
Definition home_ready : Home api :=
  {| files := [first_item; second_item]; isDragging := false;
     shareCode := "AB12CD"; joinCode := ""; hook := sender_ready |}.

(** The same page when the connection reports "connected" and the
    channel has not opened yet. *)
Definition home_waiting : Home api :=
  {| files := [first_item; second_item]; isDragging := false;
     shareCode := "AB12CD"; joinCode := "";
     hook := onconnectionstatechange StateConnected sender_waiting |}.

(** A page on which a code has been typed with a space behind it. *)
Definition home_joining : Home api :=
  {| files := []; isDragging := false; shareCode := "";
     joinCode := "AB12C "; hook := initial |}.

(** A hook that receives first.txt, 4 bytes of 10 so far, on an open
    channel. *)
Definition busy_both_ways : HookState api :=
  receiveAll
    [DString (Json (JObject (metadata_of "first.txt" 10)));
     DArrayBuffer [x01; x02; x03; x04]]
    sender_ready.

Definition six_bytes : bytes := [x05; x06; x07; x08; x09; x0a].

(** Messages that are not metadata messages. *)
Definition stray_messages : list ChannelData :=
  [DArrayBuffer eight_bytes; DBlob eight_bytes; DString Malformed;
   DString (Json JNull); DString (Json JOther);
   DString (Json (JObject {| md_type := "chunk"; md_name := "x";
                             md_size := 1; md_mimeType := "" |}))].

End PageSamples.

(** * Properties *)

(** ** Slices and chunks *)

Lemma byteLength_nonneg (b : bytes) : 0 <= byteLength b.
Proof. unfold byteLength. lia. Qed.

Lemma byteLength_app (a b : bytes) :
  byteLength (a ++ b) = byteLength a + byteLength b.
Proof. unfold byteLength. rewrite length_app. lia. Qed.

Lemma slice_firstn_skipn (contents : bytes) (offset : Z) :
  0 <= offset <= byteLength contents ->
  slice contents offset (offset + CHUNK_SIZE)
  = firstn (Z.to_nat CHUNK_SIZE) (skipn (Z.to_nat offset) contents).
Proof.
  intros Hoff. unfold slice, clamp_index, CHUNK_SIZE in *.
  destruct (Z.ltb_spec offset 0) as [?|_]; [lia|].
  destruct (Z.ltb_spec (offset + 16384) 0) as [?|_]; [lia|].
  rewrite (Z.min_l offset) by lia.
  destruct (Z.le_ge_cases (offset + 16384) (byteLength contents)) as [Hle|Hge].
  - rewrite Z.min_l by lia. f_equal. lia.
  - rewrite Z.min_r by lia.
    assert (Hlen : List.length (skipn (Z.to_nat offset) contents)
                   = Z.to_nat (byteLength contents - offset)).
    { rewrite length_skipn. unfold byteLength in *. lia. }
    rewrite !firstn_all2; trivial; rewrite Hlen; lia.
Qed.

Lemma slice_length (contents : bytes) (offset : Z) :
  0 <= offset <= byteLength contents ->
  byteLength (slice contents offset (offset + CHUNK_SIZE))
  = Z.min CHUNK_SIZE (byteLength contents - offset).
Proof.
  intros Hoff. rewrite slice_firstn_skipn by assumption.
  unfold byteLength in *. rewrite length_firstn, length_skipn.
  unfold CHUNK_SIZE. lia.
Qed.

Lemma file_chunks_concat (contents : bytes) (offset : Z) :
  0 <= offset <= byteLength contents ->
  List.concat (file_chunks contents offset) = skipn (Z.to_nat offset) contents.
Proof.
  funelim (file_chunks contents offset); intros Hoff; simpl.
  - rewrite H by (unfold CHUNK_SIZE in *; lia).
    rewrite slice_firstn_skipn by assumption.
    replace (Z.to_nat (offset + CHUNK_SIZE))
      with (Z.to_nat CHUNK_SIZE + Z.to_nat offset)%nat
      by (unfold CHUNK_SIZE; lia).
    rewrite <- skipn_skipn. apply firstn_skipn.
  - rewrite app_nil_r, slice_firstn_skipn by assumption.
    apply firstn_all2. rewrite length_skipn.
    unfold byteLength, CHUNK_SIZE in *. lia.
Qed.

Lemma file_chunks_step (contents : bytes) (offset : Z) :
  offset + CHUNK_SIZE < byteLength contents ->
  file_chunks contents offset
  = slice contents offset (offset + CHUNK_SIZE)
    :: file_chunks contents (offset + CHUNK_SIZE).
Proof.
  intros Hlt. rewrite file_chunks_equation_1.
  destruct (Z_lt_dec (offset + CHUNK_SIZE) (byteLength contents));
    [reflexivity | contradiction].
Qed.

Lemma file_chunks_last (contents : bytes) (offset : Z) :
  byteLength contents <= offset + CHUNK_SIZE ->
  file_chunks contents offset = [slice contents offset (offset + CHUNK_SIZE)].
Proof.
  intros Hge. rewrite file_chunks_equation_1.
  destruct (Z_lt_dec (offset + CHUNK_SIZE) (byteLength contents));
    [lia | reflexivity].
Qed.

Section Properties.

Context {API : PeerConnectionAPI}.

Lemma reader_onload_step (file : File) (offset t : Z) (st st' : HookState API) :
  onload_body file offset t st = Some st' ->
  offset + CHUNK_SIZE < file_size file ->
  reader_onload file offset t st
  = reader_onload file (offset + CHUNK_SIZE)
      (t + byteLength (slice (file_contents file) offset
                         (offset + CHUNK_SIZE))) st'.
Proof.
  intros Hbody Hlt. rewrite reader_onload_equation_1, Hbody. simpl.
  destruct (Z_lt_dec (offset + CHUNK_SIZE) (file_size file));
    [reflexivity | contradiction].
Qed.

Lemma reader_onload_last (file : File) (offset t : Z) (st st' : HookState API) :
  onload_body file offset t st = Some st' ->
  file_size file <= offset + CHUNK_SIZE ->
  reader_onload file offset t st = setTransferProgress None st'.
Proof.
  intros Hbody Hge. rewrite reader_onload_equation_1, Hbody. simpl.
  destruct (Z_lt_dec (offset + CHUNK_SIZE) (file_size file));
    [lia | reflexivity].
Qed.

(** *** The send loop *)

(** The setters copy every field, so a nest of them is reduced lazily,
    field by field. *)
Ltac reduce_state :=
  lazy beta iota zeta delta
    [setIsConnected setIsConnecting setTransferProgress setError
     setReceivedFiles set_peerConnection set_dataChannel set_sessionId
     set_receivingFile fetch setInterval clearInterval
     isConnected isConnecting transferProgress error receivedFiles
     peerConnection dataChannel sessionId pollingInterval receivingFile
     timers nextTimer relayRequests progressLog
     rx_name rx_size rx_mimeType receivedSize chunks received_more].

Ltac same_state :=
  reduce_state; simpl;
  f_equal; rewrite <- ?app_assoc; simpl; try reflexivity.

Lemma onload_body_open (file : File) (offset t : Z)
  (st : HookState API) (ch : RTCDataChannel) :
  dataChannel st = Some ch ->
  readyState ch = Open ->
  let result := slice (file_contents file) offset (offset + CHUNK_SIZE) in
  onload_body file offset t st
  = Some (setTransferProgress
            (Some {| fileName := file_name file;
                     progress := mul (div (t + byteLength result)
                                        (file_size file)) (of_Z 100);
                     totalSize := file_size file;
                     transferredSize := t + byteLength result;
                     isReceiving := false |})
            (set_dataChannel
               (Some {| readyState := Open;
                        sent := sent ch ++ [DArrayBuffer result] |}) st)).
Proof.
  intros Hch Hopen. unfold onload_body, channel_send.
  rewrite Hch, Hopen. reflexivity.
Qed.

Lemma reader_onload_spec (file : File) :
  forall (n : nat) (offset t : Z) (st : HookState API) (ch : RTCDataChannel),
    (Z.to_nat (file_size file - offset) <= n)%nat ->
    0 <= offset <= file_size file ->
    dataChannel st = Some ch ->
    readyState ch = Open ->
    reader_onload file offset t st
    = {| isConnected := isConnected st;
         isConnecting := isConnecting st;
         transferProgress := None;
         error := error st;
         receivedFiles := receivedFiles st;
         peerConnection := peerConnection st;
         dataChannel :=
           Some {| readyState := Open;
                   sent := sent ch
                           ++ map DArrayBuffer
                                (file_chunks (file_contents file) offset) |};
         sessionId := sessionId st;
         pollingInterval := pollingInterval st;
         receivingFile := receivingFile st;
         timers := timers st;
         nextTimer := nextTimer st;
         relayRequests := relayRequests st;
         progressLog :=
           progressLog st
           ++ map Some
                (progress_entries (file_name file) (file_size file) false t
                   (file_chunks (file_contents file) offset))
           ++ [None] |}.
Proof.
  induction n as [|n IH]; intros offset t st ch Hn Hoff Hch Hopen;
    pose proof (onload_body_open file offset t st ch Hch Hopen) as Hbody;
    cbv zeta in Hbody;
    destruct (Z_lt_dec (offset + CHUNK_SIZE) (file_size file)) as [Hlt|Hge].
  - unfold CHUNK_SIZE in *. lia.
  - rewrite (reader_onload_last _ _ _ _ _ Hbody) by lia.
    rewrite file_chunks_last by (unfold file_size in *; lia).
    same_state.
  - rewrite (reader_onload_step _ _ _ _ _ Hbody) by assumption.
    rewrite (file_chunks_step (file_contents file) offset)
      by (unfold file_size in *; lia).
    erewrite IH; [ | | | simpl; reflexivity | reflexivity ];
      [ | unfold CHUNK_SIZE in *; lia | unfold CHUNK_SIZE in *; lia ].
    same_state.
  - rewrite (reader_onload_last _ _ _ _ _ Hbody) by lia.
    rewrite file_chunks_last by (unfold file_size in *; lia).
    same_state.
Qed.

(** *** Reassembly *)

Lemma total_length_nonneg (cs : list bytes) : 0 <= total_length cs.
Proof.
  induction cs as [|c cs IH]; simpl; [lia|].
  pose proof (byteLength_nonneg c). lia.
Qed.

Lemma total_length_app (a b : list bytes) :
  total_length (a ++ b) = total_length a + total_length b.
Proof. induction a as [|c a IH]; simpl; lia. Qed.

Lemma total_length_concat (cs : list bytes) :
  byteLength (List.concat cs) = total_length cs.
Proof.
  induction cs as [|c cs IH]; simpl; [reflexivity|].
  rewrite byteLength_app. lia.
Qed.

Lemma chunks_totalSize_total_length (cs : list bytes) :
  chunks_totalSize cs = total_length cs.
Proof.
  unfold chunks_totalSize.
  enough (H : forall a, fold_left (fun sum chunk => sum + byteLength chunk) cs a
                        = a + total_length cs) by (rewrite H; lia).
  induction cs as [|c cs IH]; intros a; simpl; [lia|].
  rewrite IH. lia.
Qed.

Lemma Uint8Array_set_fits (target source : bytes) (offset : Z) :
  0 <= offset ->
  offset + byteLength source <= byteLength target ->
  Uint8Array_set target source offset
  = Some (firstn (Z.to_nat offset) target ++ source
          ++ skipn (Z.to_nat (offset + byteLength source)) target).
Proof.
  intros H0 Hfit. unfold Uint8Array_set.
  destruct (Z.ltb_spec offset 0); [lia|].
  destruct (Z.ltb_spec (byteLength target) (offset + byteLength source));
    [lia | reflexivity].
Qed.

Lemma copy_chunks_spec (cs : list bytes) :
  forall (completeFile : bytes) (offset : Z),
    0 <= offset ->
    offset + total_length cs <= byteLength completeFile ->
    copy_chunks cs completeFile offset
    = Some (firstn (Z.to_nat offset) completeFile ++ List.concat cs
            ++ skipn (Z.to_nat (offset + total_length cs)) completeFile).
Proof.
  induction cs as [|c cs IH]; intros cf offset H0 Hfit; simpl in *.
  - rewrite Z.add_0_r, firstn_skipn. reflexivity.
  - pose proof (byteLength_nonneg c) as Hc.
    pose proof (total_length_nonneg cs) as Hcs.
    rewrite Uint8Array_set_fits by lia.
    set (p := firstn (Z.to_nat offset) cf).
    set (s := skipn (Z.to_nat (offset + byteLength c)) cf).
    assert (Hp : List.length p = Z.to_nat offset).
    { subst p. rewrite length_firstn. unfold byteLength in *. lia. }
    assert (Hpc : List.length (p ++ c) = Z.to_nat (offset + byteLength c)).
    { rewrite length_app, Hp. unfold byteLength. lia. }
    assert (Hs : byteLength s = byteLength cf - (offset + byteLength c)).
    { subst s. unfold byteLength in *. rewrite length_skipn. lia. }
    rewrite IH; [ | lia | ].
    2:{ assert (Hp' : byteLength p = offset)
          by (unfold byteLength; rewrite Hp; lia).
        rewrite !byteLength_app, Hs, Hp'. lia. }
    assert (F1 : firstn (Z.to_nat (offset + byteLength c)) (p ++ c ++ s)
                 = p ++ c).
    { rewrite app_assoc, <- Hpc, firstn_app, firstn_all, Nat.sub_diag.
      simpl. apply app_nil_r. }
    assert (F2 : skipn (Z.to_nat (offset + byteLength c + total_length cs))
                   (p ++ c ++ s)
                 = skipn (Z.to_nat (offset + (byteLength c + total_length cs)))
                     cf).
    { rewrite app_assoc.
      replace (Z.to_nat (offset + byteLength c + total_length cs))
        with (Z.to_nat (total_length cs) + List.length (p ++ c))%nat
        by (rewrite Hpc; lia).
      rewrite skipn_app, skipn_all2 by lia.
      rewrite Nat.add_sub. simpl. subst s. rewrite skipn_skipn.
      f_equal. lia. }
    rewrite F1, F2, <- !app_assoc. reflexivity.
Qed.

(** The reassembly loop of [handleIncomingData] produces the
    concatenation of the chunks, and never writes out of range. *)
Lemma copy_chunks_concat (cs : list bytes) :
  copy_chunks cs (new_Uint8Array (chunks_totalSize cs)) 0
  = Some (List.concat cs).
Proof.
  pose proof (total_length_nonneg cs) as Hcs.
  assert (Hlen : byteLength (new_Uint8Array (chunks_totalSize cs))
                 = total_length cs).
  { unfold new_Uint8Array, byteLength.
    rewrite repeat_length, chunks_totalSize_total_length. lia. }
  rewrite copy_chunks_spec by lia.
  simpl. rewrite skipn_all2, app_nil_r; [reflexivity|].
  unfold byteLength in Hlen. lia.
Qed.

(** *** The receive path, one chunk and many *)

Lemma receiveChunk_partial (chunk : bytes) (rf : ReceivingFile)
  (st : HookState API) :
  receivedSize rf + byteLength chunk < rx_size rf ->
  receiveChunk chunk rf st
  = setTransferProgress
      (Some {| fileName := rx_name rf;
               progress := mul (div (receivedSize rf + byteLength chunk)
                                  (rx_size rf)) (of_Z 100);
               totalSize := rx_size rf;
               transferredSize := receivedSize rf + byteLength chunk;
               isReceiving := true |})
      (set_receivingFile (Some (received_more rf [chunk])) st).
Proof.
  intros Hlt. unfold receiveChunk. simpl.
  destruct (Z.leb_spec (rx_size rf) (receivedSize rf + byteLength chunk));
    [lia|].
  unfold received_more. simpl. rewrite Z.add_0_r. reflexivity.
Qed.

Lemma receiveChunk_complete (chunk : bytes) (rf : ReceivingFile)
  (st : HookState API) :
  rx_size rf <= receivedSize rf + byteLength chunk ->
  receiveChunk chunk rf st
  = set_receivingFile None
      (setTransferProgress None
         (setReceivedFiles
            (fun prev =>
               prev ++ [{| rf_name := rx_name rf;
                           rf_size := rx_size rf;
                           rf_mimeType := rx_mimeType rf;
                           rf_data := List.concat (chunks rf ++ [chunk]) |}])
            (setTransferProgress
               (Some {| fileName := rx_name rf;
                        progress := mul (div (receivedSize rf
                                              + byteLength chunk)
                                           (rx_size rf)) (of_Z 100);
                        totalSize := rx_size rf;
                        transferredSize := receivedSize rf + byteLength chunk;
                        isReceiving := true |})
               (set_receivingFile (Some (received_more rf [chunk])) st)))).
Proof.
  intros Hge. unfold receiveChunk. simpl.
  destruct (Z.leb_spec (rx_size rf) (receivedSize rf + byteLength chunk));
    [|lia].
  rewrite copy_chunks_concat.
  unfold received_more. simpl. rewrite Z.add_0_r. reflexivity.
Qed.

Lemma last_cons_default {A : Type} (l : list A) :
  forall (x d d' : A), last (x :: l) d = last (x :: l) d'.
Proof.
  induction l as [|y l IH]; intros x d d'; [reflexivity|].
  change (last (y :: l) d = last (y :: l) d'). apply IH.
Qed.

Lemma receiveAll_app (a b : list ChannelData) (st : HookState API) :
  receiveAll (a ++ b) st = receiveAll b (receiveAll a st).
Proof. apply fold_left_app. Qed.

(** Chunks that stay below the declared size only grow the record and
    the progress. *)
Lemma receiveAll_partial (cs : list bytes) :
  forall (rf : ReceivingFile) (st : HookState API),
    receivingFile st = Some rf ->
    receivedSize rf + total_length cs < rx_size rf ->
    receiveAll (map DArrayBuffer cs) st
    = {| isConnected := isConnected st;
         isConnecting := isConnecting st;
         transferProgress :=
           last (map Some
                   (progress_entries (rx_name rf) (rx_size rf) true
                      (receivedSize rf) cs))
                (transferProgress st);
         error := error st;
         receivedFiles := receivedFiles st;
         peerConnection := peerConnection st;
         dataChannel := dataChannel st;
         sessionId := sessionId st;
         pollingInterval := pollingInterval st;
         receivingFile := Some (received_more rf cs);
         timers := timers st;
         nextTimer := nextTimer st;
         relayRequests := relayRequests st;
         progressLog :=
           progressLog st
           ++ map Some
                (progress_entries (rx_name rf) (rx_size rf) true
                   (receivedSize rf) cs) |}.
Proof.
  induction cs as [|c cs IH]; intros rf st Hrf Hlt.
  - simpl. unfold received_more. simpl.
    rewrite Z.add_0_r, !app_nil_r.
    destruct st, rf; simpl in *; subst; reflexivity.
  - pose proof (byteLength_nonneg c) as Hc.
    pose proof (total_length_nonneg cs) as Hcs.
    simpl in Hlt.
    change (receiveAll (map DArrayBuffer (c :: cs)) st)
      with (receiveAll (map DArrayBuffer cs)
              (handleIncomingData (DArrayBuffer c) st)).
    unfold handleIncomingData. rewrite Hrf.
    rewrite receiveChunk_partial by lia.
    erewrite IH; [ | simpl; reflexivity | simpl; lia ].
    unfold received_more. simpl.
    rewrite Z.add_0_r, <- !app_assoc, Z.add_assoc. simpl.
    f_equal.
    destruct (progress_entries (rx_name rf) (rx_size rf) true
                (receivedSize rf + byteLength c) cs) as [|e es];
      [reflexivity|].
    change (map Some (e :: es)) with (Some e :: map Some es).
    rewrite (last_cons_default (map Some es) (Some e) _ (transferProgress st)).
    reflexivity.
Qed.

Lemma progress_entries_app (name : string) (total : Z) (r : bool)
  (a b : list bytes) :
  forall t : Z,
    progress_entries name total r t (a ++ b)
    = progress_entries name total r t a
      ++ progress_entries name total r (t + total_length a) b.
Proof.
  induction a as [|c a IH]; intros t; simpl.
  - rewrite Z.add_0_r. reflexivity.
  - rewrite IH, Z.add_assoc. reflexivity.
Qed.

Lemma handleIncomingData_metadata (metadata : Metadata) (st : HookState API) :
  md_type metadata = "metadata"%string ->
  handleIncomingData (DString (Json (JObject metadata))) st
  = setTransferProgress
      (Some {| fileName := md_name metadata;
               progress := of_Z 0;
               totalSize := md_size metadata;
               transferredSize := 0;
               isReceiving := true |})
      (set_receivingFile
         (Some {| rx_name := md_name metadata;
                  rx_size := md_size metadata;
                  rx_mimeType := md_mimeType metadata;
                  receivedSize := 0;
                  chunks := [] |}) st).
Proof. intros Htype. unfold handleIncomingData. simpl. rewrite Htype. reflexivity. Qed.

(** Chunks of which the last one is the first to reach the declared size
    complete the file. *)
Lemma receiveAll_completing (init : list bytes) (c : bytes)
  (rf : ReceivingFile) (st : HookState API) :
  receivingFile st = Some rf ->
  (init <> [] -> receivedSize rf + total_length init < rx_size rf) ->
  rx_size rf <= receivedSize rf + total_length init + byteLength c ->
  receiveAll (map DArrayBuffer (init ++ [c])) st
  = {| isConnected := isConnected st;
       isConnecting := isConnecting st;
       transferProgress := None;
       error := error st;
       receivedFiles :=
         receivedFiles st
         ++ [{| rf_name := rx_name rf;
                rf_size := rx_size rf;
                rf_mimeType := rx_mimeType rf;
                rf_data := List.concat (chunks rf ++ init ++ [c]) |}];
       peerConnection := peerConnection st;
       dataChannel := dataChannel st;
       sessionId := sessionId st;
       pollingInterval := pollingInterval st;
       receivingFile := None;
       timers := timers st;
       nextTimer := nextTimer st;
       relayRequests := relayRequests st;
       progressLog :=
         progressLog st
         ++ map Some
              (progress_entries (rx_name rf) (rx_size rf) true
                 (receivedSize rf) (init ++ [c]))
         ++ [None] |}.
Proof.
  intros Hrf Hbelow Hreach.
  rewrite map_app, receiveAll_app, progress_entries_app, map_app.
  destruct init as [|c0 init].
  - simpl in *. unfold handleIncomingData. rewrite Hrf.
    rewrite receiveChunk_complete by lia.
    rewrite Z.add_0_r. same_state.
  - assert (Hlt : receivedSize rf + total_length (c0 :: init) < rx_size rf)
      by (apply Hbelow; discriminate).
    clear Hbelow. remember (c0 :: init) as cs eqn:Hcs. clear Hcs.
    rewrite (receiveAll_partial cs rf st Hrf Hlt).
    unfold receiveAll at 1. simpl fold_left.
    unfold handleIncomingData. simpl receivingFile.
    rewrite receiveChunk_complete by (simpl; lia).
    same_state.
Qed.

Lemma file_chunks_shape (contents : bytes) (offset : Z) :
  0 <= offset <= byteLength contents ->
  exists (init : list bytes) (c : bytes),
    file_chunks contents offset = init ++ [c]
    /\ (init <> [] -> offset + total_length init < byteLength contents)
    /\ offset + total_length init + byteLength c = byteLength contents.
Proof.
  funelim (file_chunks contents offset); intros Hoff.
  - destruct H as (init & c & Hshape & Hbelow & Hsum);
      [unfold CHUNK_SIZE in *; lia|].
    pose proof (slice_length contents offset Hoff) as Hlen.
    rewrite Z.min_l in Hlen by lia.
    exists (slice contents offset (offset + CHUNK_SIZE) :: init), c.
    rewrite Hshape. simpl. rewrite Hlen. split; [reflexivity|]. split; [|lia].
    intros _. destruct init as [|c1 init]; [simpl; lia|].
    specialize (Hbelow ltac:(discriminate)). lia.
  - exists [], (slice contents offset (offset + CHUNK_SIZE)).
    pose proof (slice_length contents offset Hoff) as Hlen.
    rewrite Z.min_r in Hlen by lia.
    simpl. split; [reflexivity|]. split; [congruence|lia].
Qed.

(** *** Percentages *)

Ltac unfold_Q :=
  unfold Qeq, Qle, Qmult, inject_Z; cbn [Qnum Qden];
  rewrite ?Z.mul_1_l, ?Z.mul_1_r, ?Pos.mul_1_r, ?Pos.mul_1_l.

Lemma percent_unfold (t total : Z) :
  0 < total ->
  mul (div t total) (of_Z 100)
  = Finite (Qred (Qred (t # Z.to_pos total) * inject_Z 100)).
Proof.
  intros Hpos. unfold mul, div, of_Z.
  destruct (Z.eqb_spec total 0) as [?|_]; [lia|].
  rewrite Z.sgn_pos, Z.abs_eq, Z.mul_1_l by lia. reflexivity.
Qed.

Lemma percent_in_range (t total : Z) :
  0 < total -> 0 <= t <= total ->
  in_percent_range (mul (div t total) (of_Z 100)).
Proof.
  intros Hpos Ht. rewrite percent_unfold by assumption.
  unfold in_percent_range. rewrite !Qred_correct.
  unfold_Q. rewrite Z2Pos.id by lia. lia.
Qed.

Lemma percent_full (total : Z) :
  0 < total -> mul (div total total) (of_Z 100) = of_Z 100.
Proof.
  intros Hpos. rewrite percent_unfold by assumption.
  unfold of_Z. f_equal.
  transitivity (Qred (inject_Z 100)); [|reflexivity].
  apply Qred_complete. rewrite Qred_correct.
  unfold_Q. rewrite Z2Pos.id by lia. lia.
Qed.

Lemma percent_none (total : Z) :
  0 < total -> mul (div 0 total) (of_Z 100) = of_Z 0.
Proof.
  intros Hpos. rewrite percent_unfold by assumption.
  reflexivity.
Qed.

(** *** Progress histories *)

Lemma nondecreasing_app (l : list Z) (x y : Z) :
  nondecreasing (l ++ [x]) -> x <= y -> nondecreasing ((l ++ [x]) ++ [y]).
Proof.
  induction l as [|a l IH]; intros Hl Hxy; simpl in *; [lia|].
  destruct Hl as [Hhead Htail]. split; [|apply IH; assumption].
  destruct l as [|b l]; simpl in *; assumption.
Qed.

Lemma progress_entries_ok (name : string) (total : Z) (r : bool) :
  0 < total ->
  forall (cs : list bytes) (t : Z),
    0 <= t ->
    t + total_length cs <= total ->
    Forall progress_derived (progress_entries name total r t cs)
    /\ nondecreasing
         (t :: map transferredSize (progress_entries name total r t cs)).
Proof.
  intros Hpos. induction cs as [|c cs IH]; intros t Ht Hsum; simpl in *.
  - split; [constructor | tauto].
  - pose proof (byteLength_nonneg c) as Hc.
    pose proof (total_length_nonneg cs) as Hcs.
    destruct (IH (t + byteLength c)) as [Hall Hmono]; [lia | lia |].
    split.
    + constructor; [|assumption].
      split; [reflexivity|]. simpl. apply percent_in_range; lia.
    + split; [lia|]. exact Hmono.
Qed.

(** The history of a transfer in which the chunks [init ++ [c]] add up to
    the total, which is positive. *)
Lemma transfer_history_ok (name : string) (total : Z) (r : bool)
  (init : list bytes) (c : bytes) :
  0 < total ->
  total_length init + byteLength c = total ->
  progress_history_ok
    (Some {| fileName := name; progress := of_Z 0; totalSize := total;
             transferredSize := 0; isReceiving := r |}
     :: map Some (progress_entries name total r 0 (init ++ [c])) ++ [None]).
Proof.
  intros Hpos Hsum.
  pose proof (byteLength_nonneg c) as Hc.
  pose proof (total_length_nonneg init) as Hinit.
  set (p0 := {| fileName := name; progress := of_Z 0; totalSize := total;
                transferredSize := 0; isReceiving := r |}).
  set (pf := {| fileName := name;
                progress := mul (div (0 + total_length init + byteLength c)
                                   total) (of_Z 100);
                totalSize := total;
                transferredSize := 0 + total_length init + byteLength c;
                isReceiving := r |}).
  assert (Hentries : progress_entries name total r 0 (init ++ [c])
                     = progress_entries name total r 0 init ++ [pf]).
  { rewrite progress_entries_app. reflexivity. }
  destruct (progress_entries_ok name total r Hpos (init ++ [c]) 0) as [Hall Hmono];
    [lia | rewrite total_length_app; simpl; lia |].
  exists (p0 :: progress_entries name total r 0 init), pf.
  rewrite Hentries in *. split; [reflexivity|]. split; [|split].
  - constructor; [|exact Hall].
    split; [symmetry; apply percent_none; exact Hpos|].
    simpl. unfold_Q. lia.
  - exact Hmono.
  - unfold pf. cbn [progress]. rewrite Z.add_0_l, Hsum.
    apply percent_full. exact Hpos.
Qed.

(** *** A whole file, sent and received *)

Lemma sendFile_open (file : File) (st : HookState API) (ch : RTCDataChannel) :
  dataChannel st = Some ch ->
  readyState ch = Open ->
  sendFile file st
  = (None,
     {| isConnected := isConnected st;
        isConnecting := isConnecting st;
        transferProgress := None;
        error := error st;
        receivedFiles := receivedFiles st;
        peerConnection := peerConnection st;
        dataChannel :=
          Some {| readyState := Open;
                  sent := sent ch
                          ++ metadata_message file
                             :: map DArrayBuffer
                                  (file_chunks (file_contents file) 0) |};
        sessionId := sessionId st;
        pollingInterval := pollingInterval st;
        receivingFile := receivingFile st;
        timers := timers st;
        nextTimer := nextTimer st;
        relayRequests := relayRequests st;
        progressLog :=
          progressLog st
          ++ Some {| fileName := file_name file;
                     progress := of_Z 0;
                     totalSize := file_size file;
                     transferredSize := 0;
                     isReceiving := false |}
             :: map Some
                  (progress_entries (file_name file) (file_size file) false 0
                     (file_chunks (file_contents file) 0))
             ++ [None] |}).
Proof.
  intros Hch Hopen. unfold sendFile, channel_send.
  rewrite Hch, Hopen. simpl. f_equal.
  pose proof (byteLength_nonneg (file_contents file)) as Hsize.
  erewrite (reader_onload_spec file (Z.to_nat (file_size file)));
    [ | lia | unfold file_size; lia | simpl; reflexivity | reflexivity ].
  unfold metadata_message. same_state.
Qed.

Lemma receive_sent_file (file : File) (st : HookState API) :
  receiveAll
    (metadata_message file
     :: map DArrayBuffer (file_chunks (file_contents file) 0)) st
  = {| isConnected := isConnected st;
       isConnecting := isConnecting st;
       transferProgress := None;
       error := error st;
       receivedFiles := receivedFiles st ++ [received_copy file];
       peerConnection := peerConnection st;
       dataChannel := dataChannel st;
       sessionId := sessionId st;
       pollingInterval := pollingInterval st;
       receivingFile := None;
       timers := timers st;
       nextTimer := nextTimer st;
       relayRequests := relayRequests st;
       progressLog :=
         progressLog st
         ++ Some {| fileName := file_name file;
                    progress := of_Z 0;
                    totalSize := file_size file;
                    transferredSize := 0;
                    isReceiving := true |}
            :: map Some
                 (progress_entries (file_name file) (file_size file) true 0
                    (file_chunks (file_contents file) 0))
            ++ [None] |}.
Proof.
  pose proof (byteLength_nonneg (file_contents file)) as Hsize.
  assert (Hoff : 0 <= 0 <= byteLength (file_contents file)) by lia.
  pose proof (file_chunks_concat (file_contents file) 0 Hoff) as Hconcat.
  destruct (file_chunks_shape (file_contents file) 0 Hoff)
    as (init & c & Hshape & Hbelow & Hsum).
  rewrite Hshape in *. clear Hshape.
  change (receiveAll (?m :: ?l) st)
    with (receiveAll l (handleIncomingData m st)).
  unfold metadata_message, JSON_stringify.
  rewrite handleIncomingData_metadata by reflexivity.
  erewrite receiveAll_completing;
    [ | simpl; reflexivity | simpl; exact Hbelow
      | simpl; unfold file_size; lia ].
  cbn [chunks rx_name rx_size rx_mimeType receivedSize].
  change ([] ++ init ++ [c]) with (init ++ [c]). rewrite Hconcat.
  unfold received_copy. same_state.
Qed.

Lemma file_chunks_bounded (contents : bytes) (offset : Z) :
  0 <= offset <= byteLength contents ->
  Forall (fun c => byteLength c <= CHUNK_SIZE) (file_chunks contents offset).
Proof.
  funelim (file_chunks contents offset); intros Hoff.
  - constructor.
    + rewrite slice_length by assumption. lia.
    + apply H. unfold CHUNK_SIZE in *. lia.
  - constructor; [|constructor].
    rewrite slice_length by assumption. lia.
Qed.

(** ** The claims about the transfer engine *)

(** C1.  Round trip.  Whatever the size of the file, [sendFile] on an open
    channel sends one metadata message followed by chunks of at most 16384
    bytes whose concatenation is the file; and a receiver that handles
    these messages in order ends with exactly one more entry in
    [receivedFiles], carrying the name, size, type and bytes of the file,
    with no receive left in progress. *)
Theorem sendFile_roundtrip (file : File) (sender receiver : HookState API)
  (ch : RTCDataChannel) :
  dataChannel sender = Some ch ->
  readyState ch = Open ->
  exists (sender' : HookState API) (cs : list bytes),
    sendFile file sender = (None, sender')
    /\ dataChannel sender'
       = Some {| readyState := Open;
                 sent := sent ch
                         ++ metadata_message file :: map DArrayBuffer cs |}
    /\ Forall (fun c => byteLength c <= CHUNK_SIZE) cs
    /\ List.concat cs = file_contents file
    /\ (let receiver' :=
          receiveAll (metadata_message file :: map DArrayBuffer cs) receiver in
        receivedFiles receiver'
        = receivedFiles receiver
          ++ [{| rf_name := file_name file;
                 rf_size := file_size file;
                 rf_mimeType := file_type file;
                 rf_data := file_contents file |}]
        /\ receivingFile receiver' = None
        /\ transferProgress receiver' = None).
Proof.
  intros Hch Hopen.
  pose proof (byteLength_nonneg (file_contents file)) as Hsize.
  assert (Hoff : 0 <= 0 <= byteLength (file_contents file)) by lia.
  eexists. exists (file_chunks (file_contents file) 0).
  split; [apply (sendFile_open file sender ch Hch Hopen)|].
  split; [reflexivity|].
  split; [apply file_chunks_bounded; exact Hoff|].
  split; [apply (file_chunks_concat (file_contents file) 0 Hoff)|].
  cbv zeta. rewrite receive_sent_file. simpl. auto.
Qed.

(** C2, as the code has it.  After a metadata message, [receivedFiles]
    does not change while the chunks received add up to less than the
    declared size; the chunk with which they reach or pass it completes
    the file, which then holds every byte received, also when these are
    more than declared. *)
Theorem receive_completes_on_reaching_size (metadata : Metadata)
  (st : HookState API) (cs init : list bytes) (c : bytes) :
  md_type metadata = "metadata"%string ->
  (total_length cs < md_size metadata ->
   receivedFiles
     (receiveAll (DString (Json (JObject metadata)) :: map DArrayBuffer cs) st)
   = receivedFiles st)
  /\ ((init <> [] -> total_length init < md_size metadata) ->
      md_size metadata <= total_length init + byteLength c ->
      receivedFiles
        (receiveAll (DString (Json (JObject metadata))
                     :: map DArrayBuffer (init ++ [c])) st)
      = receivedFiles st
        ++ [{| rf_name := md_name metadata;
               rf_size := md_size metadata;
               rf_mimeType := md_mimeType metadata;
               rf_data := List.concat (init ++ [c]) |}]).
Proof.
  intros Htype. split.
  - intros Hlt.
    change (receiveAll (?m :: ?l) st)
      with (receiveAll l (handleIncomingData m st)).
    rewrite handleIncomingData_metadata by assumption.
    erewrite receiveAll_partial; [ | simpl; reflexivity | simpl; lia ].
    reflexivity.
  - intros Hbelow Hreach.
    change (receiveAll (?m :: ?l) st)
      with (receiveAll l (handleIncomingData m st)).
    rewrite handleIncomingData_metadata by assumption.
    erewrite receiveAll_completing;
      [ | simpl; reflexivity | simpl; exact Hbelow | simpl; lia ].
    reflexivity.
Qed.

(** C3.  When the data channel is missing or not open, [sendFile] throws
    "Data channel not ready" and leaves the state as it was: nothing is
    sent over the channel and no progress is set. *)
Theorem sendFile_channel_not_ready (file : File) (st : HookState API) :
  (forall ch, dataChannel st = Some ch -> readyState ch <> Open) ->
  sendFile file st = (Some (Error "Data channel not ready"), st).
Proof.
  intros Hclosed. unfold sendFile.
  destruct (dataChannel st) as [ch|]; [|reflexivity].
  specialize (Hclosed ch eq_refl).
  destruct (readyState ch); simpl; try reflexivity. contradiction.
Qed.

(** C4, as the code has it.  For a file of positive size, the values that
    [sendFile] passes to [setTransferProgress], and those that the
    receiver of its messages passes, form a history in which the
    transferred size never decreases, every percentage is
    transferredSize / totalSize * 100 and lies in [0,100], and the last
    percentage before the clearing is 100. *)
Theorem transfer_progress_history (file : File)
  (sender receiver : HookState API) (ch : RTCDataChannel) :
  dataChannel sender = Some ch ->
  readyState ch = Open ->
  0 < file_size file ->
  exists (sender' : HookState API) (frames : list ChannelData)
         (sent_log received_log : list (option FileTransferProgress)),
    sendFile file sender = (None, sender')
    /\ dataChannel sender'
       = Some {| readyState := Open; sent := sent ch ++ frames |}
    /\ progressLog sender' = progressLog sender ++ sent_log
    /\ progress_history_ok sent_log
    /\ progressLog (receiveAll frames receiver)
       = progressLog receiver ++ received_log
    /\ progress_history_ok received_log.
Proof.
  intros Hch Hopen Hpos.
  assert (Hoff : 0 <= 0 <= byteLength (file_contents file))
    by (unfold file_size in Hpos; lia).
  destruct (file_chunks_shape (file_contents file) 0 Hoff)
    as (init & c & Hshape & _ & Hsum).
  do 4 eexists.
  split; [apply (sendFile_open file sender ch Hch Hopen)|].
  split; [reflexivity|].
  split; [reflexivity|].
  split.
  { rewrite Hshape. apply transfer_history_ok; [assumption|].
    unfold file_size. lia. }
  split.
  { rewrite receive_sent_file. reflexivity. }
  rewrite Hshape. apply transfer_history_ok; [assumption|].
  unfold file_size. lia.
Qed.

(** C5, as the code has it.  A metadata message is never ignored: also in
    the middle of another file it replaces the receive record by a fresh
    one for the announced file and sets the progress to 0 of its size.
    The files received so far, the channel, the connection and the error
    are untouched. *)
Theorem metadata_restarts_receive (metadata : Metadata) (st : HookState API) :
  md_type metadata = "metadata"%string ->
  let st' := handleIncomingData (DString (Json (JObject metadata))) st in
  receivingFile st'
  = Some {| rx_name := md_name metadata;
            rx_size := md_size metadata;
            rx_mimeType := md_mimeType metadata;
            receivedSize := 0;
            chunks := [] |}
  /\ transferProgress st'
     = Some {| fileName := md_name metadata;
               progress := of_Z 0;
               totalSize := md_size metadata;
               transferredSize := 0;
               isReceiving := true |}
  /\ receivedFiles st' = receivedFiles st
  /\ dataChannel st' = dataChannel st
  /\ peerConnection st' = peerConnection st
  /\ isConnected st' = isConnected st
  /\ error st' = error st.
Proof.
  intros Htype st'. subst st'.
  rewrite handleIncomingData_metadata by assumption.
  simpl. repeat split.
Qed.

(** C6.  A binary message that arrives while no receive record is active
    changes nothing at all. *)
Theorem chunk_without_metadata_ignored (data : bytes) (st : HookState API) :
  receivingFile st = None ->
  handleIncomingData (DArrayBuffer data) st = st.
Proof. intros Hnone. unfold handleIncomingData. rewrite Hnone. reflexivity. Qed.

(** ** The claims about sessions and signaling *)

Ltac split_cases :=
  repeat match goal with
    | |- context [match ?x with _ => _ end] => destruct x eqn:?; simpl
    end.

Lemma handleSignalingMessage_whatever_error (response_ok : bool)
  (message : SignalingMessage API) (a b : HookState API) :
  setError None a = setError None b ->
  setError None (handleSignalingMessage response_ok message a)
  = setError None (handleSignalingMessage response_ok message b).
Proof.
  intros Hsame. destruct a, b. unfold setError in Hsame. simpl in Hsame.
  injection Hsame as -> -> -> -> -> -> -> -> -> -> -> -> ->.
  unfold handleSignalingMessage, signaling_failed, sendSignalingMessage,
    setError, set_peerConnection, fetch. simpl.
  split_cases; reflexivity.
Qed.

Lemma handleAll_whatever_error (response_ok : bool)
  (messages : list (SignalingMessage API)) :
  forall a b : HookState API,
    setError None a = setError None b ->
    setError None (handleAll response_ok messages a)
    = setError None (handleAll response_ok messages b).
Proof.
  induction messages as [|m messages IH]; intros a b Hsame; [exact Hsame|].
  simpl. apply IH. apply handleSignalingMessage_whatever_error. exact Hsame.
Qed.

Lemma handleSignalingMessage_keeps_error (response_ok : bool)
  (message : SignalingMessage API) (st : HookState API) :
  error st <> None ->
  error (handleSignalingMessage response_ok message st) <> None.
Proof.
  intros Herr.
  unfold handleSignalingMessage, signaling_failed, sendSignalingMessage.
  split_cases; simpl; try assumption; discriminate.
Qed.

Lemma handleAll_keeps_error (response_ok : bool)
  (messages : list (SignalingMessage API)) :
  forall st : HookState API,
    error st <> None -> error (handleAll response_ok messages st) <> None.
Proof.
  induction messages as [|m messages IH]; intros st Herr; [exact Herr|].
  simpl. apply IH. apply handleSignalingMessage_keeps_error. exact Herr.
Qed.

Lemma cleanup_spec (st : HookState API) :
  cleanup st
  = {| isConnected := false;
       isConnecting := false;
       transferProgress := None;
       error := error st;
       receivedFiles := [];
       peerConnection := option_map pc_close (peerConnection st);
       dataChannel := option_map channel_close (dataChannel st);
       sessionId := None;
       pollingInterval := pollingInterval st;
       receivingFile := None;
       timers := match pollingInterval st with
                 | Some id => remove Pos.eq_dec id (timers st)
                 | None => timers st
                 end;
       nextTimer := nextTimer st;
       relayRequests := relayRequests st;
       progressLog := progressLog st ++ [None] |}.
Proof.
  destruct st as [? ? ? ? ? pc ch ? id ? ? ? ? ?].
  destruct pc, ch, id; reflexivity.
Qed.

(** C7, as the code has it.  [cleanup] resets the connection flags, the
    progress, the received files, the session id and the receive record,
    and stops the timer that [pollingInterval] refers to.  It leaves the
    error as it was.  On the state of a freshly mounted hook it changes
    nothing, and provided closing a closed connection does nothing, a
    second [cleanup] changes nothing either. *)
Theorem cleanup_resets_and_is_idempotent (st : HookState API) :
  (forall pc : RTCPeerConnection, pc_close (pc_close pc) = pc_close pc) ->
  let st' := cleanup st in
  isConnected st' = false
  /\ isConnecting st' = false
  /\ transferProgress st' = None
  /\ receivedFiles st' = []
  /\ sessionId st' = None
  /\ receivingFile st' = None
  /\ (forall id, pollingInterval st = Some id -> ~ In id (timers st'))
  /\ error st' = error st
  /\ forget_history (cleanup st') = forget_history st'
  /\ forget_history (cleanup initial) = initial.
Proof.
  intros Hclose st'. subst st'.
  repeat match goal with |- _ /\ _ => split end.
  1-6: reflexivity.
  - intros id Hid. rewrite cleanup_spec, Hid. apply remove_In.
  - rewrite cleanup_spec. reflexivity.
  - rewrite (cleanup_spec (cleanup st)), (cleanup_spec st).
    unfold forget_history. simpl.
    destruct (pollingInterval st), (dataChannel st), (peerConnection st);
      simpl; rewrite ?Hclose, ?remove_remove_eq; reflexivity.
  - reflexivity.
Qed.

(** C8, as the code has it.  A candidate message is handed to
    [addIceCandidate] on arrival and kept nowhere else.  If the connection
    accepts it, only the connection changes.  If the connection rejects
    it, the error "Failed to handle signaling message" is set, and the
    messages handled later leave the connection as they would had the
    candidate never arrived, while an error stays set. *)
Theorem candidate_applied_on_arrival (response_ok : bool)
  (st : HookState API) (pc : RTCPeerConnection) (candidate : Descriptor)
  (later : list (SignalingMessage API)) :
  peerConnection st = Some pc ->
  let st' := handleSignalingMessage response_ok
               {| message_type := "candidate";
                  payload := JSON_stringify candidate |} st in
  match pc_addIceCandidate pc candidate with
  | Some pc' => st' = set_peerConnection (Some pc') st
  | None =>
      st' = setError (Some "Failed to handle signaling message"%string) st
      /\ peerConnection (handleAll response_ok later st')
         = peerConnection (handleAll response_ok later st)
      /\ error (handleAll response_ok later st') <> None
  end.
Proof.
  intros Hpc st'.
  assert (Hst' : st' = match pc_addIceCandidate pc candidate with
                       | Some pc' => set_peerConnection (Some pc') st
                       | None => signaling_failed st
                       end).
  { subst st'. unfold handleSignalingMessage. rewrite Hpc. reflexivity. }
  destruct (pc_addIceCandidate pc candidate) as [pc'|]; [exact Hst'|].
  split; [exact Hst'|]. rewrite Hst'. split.
  - change (peerConnection ?s) with (peerConnection (setError None s)).
    f_equal. apply handleAll_whatever_error. reflexivity.
  - apply handleAll_keeps_error. discriminate.
Qed.

(** C9.  After [cleanup] the list of received files is empty, whatever it
    held before. *)
Theorem cleanup_discards_received_files (st : HookState API) :
  receivedFiles (cleanup st) = [].
Proof. reflexivity. Qed.

(** C10, as the code has it.  For every code, [joinSession] returns the
    code, adopts it as session id without a request to the relay, creates
    the peer connection, sets [isConnecting] and clears the error.  It
    starts the polling timer unless the code is the empty string, for
    which no timer is started. *)
Theorem joinSession_adopts_code (code : string) (st : HookState API) :
  let result := joinSession code st in
  fst result = code
  /\ sessionId (snd result) = Some code
  /\ isConnecting (snd result) = true
  /\ error (snd result) = None
  /\ peerConnection (snd result) = Some pc_new
  /\ relayRequests (snd result) = relayRequests st
  /\ (if String.eqb code "" then
        pollingInterval (snd result) = pollingInterval st
        /\ timers (snd result) = timers st
      else
        pollingInterval (snd result) = Some (nextTimer st)
        /\ timers (snd result) = nextTimer st :: timers st).
Proof.
  unfold joinSession, startPolling, truthy. simpl.
  destruct (String.eqb code ""); simpl; repeat split.
Qed.

(** ** Beyond the claims: the receive path on arbitrary messages *)

Lemma receiveAll_cons (d : ChannelData) (frames : list ChannelData)
  (st : HookState API) :
  receiveAll (d :: frames) st = receiveAll frames (handleIncomingData d st).
Proof. reflexivity. Qed.

Lemma handleIncomingData_not_metadata (d : ChannelData) (st : HookState API) :
  is_metadata d = false ->
  receivingFile st = None ->
  handleIncomingData d st = st.
Proof.
  intros Hd Hnone. unfold handleIncomingData.
  destruct d as [[|[|o|]]|data|data]; simpl in *; try reflexivity.
  - rewrite Hd. reflexivity.
  - rewrite Hnone. reflexivity.
Qed.

(** X1.  While no receive is active, every message that is not a metadata
    message is ignored: binary chunks, blobs, malformed text and JSON of
    any other kind leave the state as it is. *)
Theorem receive_needs_metadata (frames : list ChannelData)
  (st : HookState API) :
  receivingFile st = None ->
  forallb (fun d => negb (is_metadata d)) frames = true ->
  receiveAll frames st = st.
Proof.
  intros Hnone. induction frames as [|d frames IH]; intros Hall;
    [reflexivity|].
  simpl in Hall. apply andb_prop in Hall as [Hd Hrest].
  rewrite receiveAll_cons, handleIncomingData_not_metadata;
    [apply IH; exact Hrest | | exact Hnone].
  destruct (is_metadata d); [discriminate | reflexivity].
Qed.

Lemma receiveAll_binary_idle (cs : list bytes) (st : HookState API) :
  receivingFile st = None ->
  receiveAll (map DArrayBuffer cs) st = st.
Proof.
  intros Hnone. apply receive_needs_metadata; [exact Hnone|].
  induction cs as [|c cs IH]; [reflexivity | exact IH].
Qed.

(** What one message does to the files and to the record. *)
Lemma handleIncomingData_cases (d : ChannelData) (st : HookState API) :
  (receivedFiles (handleIncomingData d st) = receivedFiles st
   /\ (receivingFile (handleIncomingData d st) = receivingFile st
       \/ (is_metadata d = true
           /\ exists rf, receivingFile (handleIncomingData d st) = Some rf
                         /\ receivedSize rf = 0 /\ chunks rf = [])
       \/ (exists chunk rf,
             d = DArrayBuffer chunk
             /\ receivingFile st = Some rf
             /\ receivedSize rf + byteLength chunk < rx_size rf
             /\ receivingFile (handleIncomingData d st)
                = Some (received_more rf [chunk]))))
  \/ (exists chunk rf,
        d = DArrayBuffer chunk
        /\ receivingFile st = Some rf
        /\ rx_size rf <= receivedSize rf + byteLength chunk
        /\ receivingFile (handleIncomingData d st) = None
        /\ receivedFiles (handleIncomingData d st)
           = receivedFiles st
             ++ [{| rf_name := rx_name rf;
                    rf_size := rx_size rf;
                    rf_mimeType := rx_mimeType rf;
                    rf_data := List.concat (chunks rf ++ [chunk]) |}]).
Proof.
  destruct d as [[|[|o|]]|data|data]; simpl;
    try (left; split; [reflexivity | left; reflexivity]).
  - destruct (String.eqb (md_type o) "metadata") eqn:Htype.
    + left. split; [reflexivity|]. right. left. split; [reflexivity|].
      eexists. split; [reflexivity|]. split; reflexivity.
    + left. split; [reflexivity | left; reflexivity].
  - destruct (receivingFile st) as [rf|] eqn:Hrf.
    + destruct (Z_lt_dec (receivedSize rf + byteLength data) (rx_size rf))
        as [Hlt|Hge].
      * left. rewrite receiveChunk_partial by assumption.
        split; [reflexivity|]. right. right.
        exists data, rf. repeat split; assumption.
      * right. exists data, rf. rewrite receiveChunk_complete by lia.
        repeat split; try reflexivity. lia.
    + left. split; [reflexivity | left; congruence].
Qed.

Ltac count_cases :=
  simpl in *;
  repeat match goal with
    | H : context [match ?x with Some _ => _ | None => _ end] |- _ =>
        destruct x
    | |- context [match ?x with Some _ => _ | None => _ end] => destruct x
    end;
  simpl in *; lia.

(** X2.  [receivedFiles] only grows, and every file added closes a receive:
    the files added by a run of messages, together with the receive that
    is still open at its end, are at most as many as the metadata
    messages of the run plus the receive that was open at its start. *)
Theorem received_files_only_grow (frames : list ChannelData) :
  forall st : HookState API,
    exists added : list ReceivedFile,
      receivedFiles (receiveAll frames st) = receivedFiles st ++ added
      /\ (List.length added + receives_open (receiveAll frames st) []
          <= receives_open st frames)%nat.
Proof.
  unfold receives_open.
  induction frames as [|d frames IH]; intros st.
  - exists []. rewrite app_nil_r. simpl. split; [reflexivity | lia].
  - rewrite receiveAll_cons.
    destruct (IH (handleIncomingData d st)) as (added & Hfiles & Hcount).
    simpl filter. simpl in Hcount.
    destruct (handleIncomingData_cases d st)
      as [[Hsame [Hrec | [(Hmeta & rf & Hrec & _) | Hpart]]] | Hdone].
    + exists added. rewrite Hfiles, Hsame. split; [reflexivity|].
      rewrite Hrec in Hcount.
      destruct (is_metadata d); simpl; count_cases.
    + exists added. rewrite Hfiles, Hsame. split; [reflexivity|].
      rewrite Hrec in Hcount. rewrite Hmeta. simpl. count_cases.
    + destruct Hpart as (chunk & rf & -> & Hrf & _ & Hrec).
      exists added. rewrite Hfiles, Hsame. split; [reflexivity|].
      rewrite Hrec in Hcount. rewrite Hrf. simpl. count_cases.
    + destruct Hdone as (chunk & rf & -> & Hrf & _ & Hrec & Hadd).
      eexists. rewrite Hfiles, Hadd, <- app_assoc. split; [reflexivity|].
      rewrite Hrec in Hcount. rewrite Hrf. simpl. count_cases.
Qed.

Lemma handleIncomingData_keeps_invariant (d : ChannelData)
  (st : HookState API) :
  record_consistent st -> files_complete st ->
  record_consistent (handleIncomingData d st)
  /\ files_complete (handleIncomingData d st).
Proof.
  unfold record_consistent, files_complete. intros Hrecord Hfiles.
  destruct (handleIncomingData_cases d st)
    as [[Hsame [Hrec | [(_ & rf & Hrec & Hsize & Hchunks) | Hpart]]] | Hdone].
  - rewrite Hsame, Hrec. auto.
  - rewrite Hsame, Hrec, Hsize, Hchunks. auto.
  - destruct Hpart as (chunk & rf & _ & Hrf & _ & Hrec).
    rewrite Hsame, Hrec. rewrite Hrf in Hrecord. simpl.
    rewrite total_length_app, Hrecord. auto.
  - destruct Hdone as (chunk & rf & _ & Hrf & Hreach & Hrec & Hadd).
    rewrite Hrec, Hadd. rewrite Hrf in Hrecord. split; [exact I|].
    apply Forall_app. split; [exact Hfiles|].
    constructor; [|constructor]. simpl.
    rewrite total_length_concat, total_length_app. simpl. lia.
Qed.

(** X3.  Whatever messages arrive, in whatever order, no file is exposed that
    holds fewer bytes than its declared size, and the record of the
    receive in progress counts exactly the bytes of its chunks. *)
Theorem receive_keeps_files_complete (frames : list ChannelData) :
  forall st : HookState API,
    record_consistent st -> files_complete st ->
    record_consistent (receiveAll frames st)
    /\ files_complete (receiveAll frames st).
Proof.
  induction frames as [|d frames IH]; intros st Hrecord Hfiles;
    [split; assumption|].
  rewrite receiveAll_cons.
  destruct (handleIncomingData_keeps_invariant d st Hrecord Hfiles).
  apply IH; assumption.
Qed.

Lemma receiveAll_metadata_messages (fs : list File) :
  forall st : HookState API,
    receivedFiles (receiveAll (map metadata_message fs) st)
    = receivedFiles st.
Proof.
  induction fs as [|f fs IH]; intros st; [reflexivity|].
  simpl map. rewrite receiveAll_cons, IH.
  unfold metadata_message, JSON_stringify.
  rewrite handleIncomingData_metadata by reflexivity. reflexivity.
Qed.

Lemma receiveAll_binary_active (cs : list bytes) :
  forall (rf : ReceivingFile) (st : HookState API),
    receivingFile st = Some rf ->
    receivedFiles (receiveAll (map DArrayBuffer cs) st) = receivedFiles st
    \/ exists k : nat,
         receivedFiles (receiveAll (map DArrayBuffer cs) st)
         = receivedFiles st
           ++ [{| rf_name := rx_name rf;
                  rf_size := rx_size rf;
                  rf_mimeType := rx_mimeType rf;
                  rf_data := List.concat (chunks rf ++ firstn k cs) |}].
Proof.
  induction cs as [|c cs IH]; intros rf st Hrf; [left; reflexivity|].
  simpl map. rewrite receiveAll_cons.
  destruct (handleIncomingData_cases (DArrayBuffer c) st)
    as [[Hsame [Hrec | [(Hmeta & _) | Hpart]]] | Hdone].
  - exfalso. unfold handleIncomingData in Hrec. rewrite Hrf in Hrec.
    destruct (Z_lt_dec (receivedSize rf + byteLength c) (rx_size rf)).
    + rewrite receiveChunk_partial in Hrec by assumption.
      simpl in Hrec. injection Hrec as Hrec.
      apply (f_equal chunks) in Hrec. simpl in Hrec.
      apply (f_equal (@List.length bytes)) in Hrec.
      rewrite length_app in Hrec. simpl in Hrec. lia.
    + rewrite receiveChunk_complete in Hrec by lia. discriminate.
  - discriminate.
  - destruct Hpart as (chunk & rf' & Heq & Hrf' & _ & Hrec).
    injection Heq as <-. rewrite Hrf in Hrf'. injection Hrf' as <-.
    destruct (IH _ _ Hrec) as [Hnone | (k & Hk)].
    + left. congruence.
    + right. exists (S k). rewrite Hk, Hsame. simpl.
      rewrite <- app_assoc. reflexivity.
  - destruct Hdone as (chunk & rf' & Heq & Hrf' & _ & Hrec & Hadd).
    injection Heq as <-. rewrite Hrf in Hrf'. injection Hrf' as <-.
    right. exists 1%nat. rewrite receiveAll_binary_idle by exact Hrec.
    rewrite Hadd. reflexivity.
Qed.

Lemma receiveAll_metadata_last (fs : list File) (f : File)
  (st : HookState API) :
  receiveAll (map metadata_message (fs ++ [f])) st
  = setTransferProgress
      (Some {| fileName := file_name f;
               progress := of_Z 0;
               totalSize := file_size f;
               transferredSize := 0;
               isReceiving := true |})
      (set_receivingFile
         (Some {| rx_name := file_name f;
                  rx_size := file_size f;
                  rx_mimeType := file_type f;
                  receivedSize := 0;
                  chunks := [] |})
         (receiveAll (map metadata_message fs) st)).
Proof. rewrite map_app, receiveAll_app. reflexivity. Qed.

Lemma metadata_burst (announced : list File) (last : File)
  (cs : list bytes) (st : HookState API) :
  let st' := receiveAll (map metadata_message (announced ++ [last])
                         ++ map DArrayBuffer cs) st in
  receivedFiles st' = receivedFiles st
  \/ exists k : nat,
       receivedFiles st'
       = receivedFiles st
         ++ [{| rf_name := file_name last;
                rf_size := file_size last;
                rf_mimeType := file_type last;
                rf_data := List.concat (firstn k cs) |}].
Proof.
  intros st'. subst st'.
  rewrite receiveAll_app, receiveAll_metadata_last.
  match goal with
  | |- context [receiveAll (map DArrayBuffer cs) ?s] =>
      destruct (receiveAll_binary_active cs
                  {| rx_name := file_name last;
                     rx_size := file_size last;
                     rx_mimeType := file_type last;
                     receivedSize := 0;
                     chunks := [] |} s eq_refl) as [Hnone | (k & Hk)]
  end.
  - left. rewrite Hnone. simpl. apply receiveAll_metadata_messages.
  - right. exists k. rewrite Hk. simpl.
    rewrite receiveAll_metadata_messages. reflexivity.
Qed.

(** X4.  Several metadata messages in a row, then chunks: the receiver keeps
    only the record of the last metadata message.  It ends with at most
    one new file, under the name, size and type of the last file
    announced, and the bytes of that file are the first chunks that
    arrived, whichever file they were read from. *)
Theorem metadata_burst_yields_one_file (announced : list File) (last : File)
  (cs : list bytes) (st : HookState API) :
  let st' := receiveAll (map metadata_message (announced ++ [last])
                         ++ map DArrayBuffer cs) st in
  receivedFiles st' = receivedFiles st
  \/ exists k : nat,
       receivedFiles st'
       = receivedFiles st
         ++ [{| rf_name := file_name last;
                rf_size := file_size last;
                rf_mimeType := file_type last;
                rf_data := List.concat (firstn k cs) |}].
Proof. apply metadata_burst. Qed.

(** ** Beyond the claims: sending, event by event *)

Lemma channel_eta (ch : RTCDataChannel) :
  ch = {| readyState := readyState ch;
          sent := sent ch ++ map DArrayBuffer [] |}.
Proof. destruct ch. simpl. rewrite app_nil_r. reflexivity. Qed.

Lemma onload_body_not_open (file : File) (offset t : Z)
  (st : HookState API) :
  (forall ch, dataChannel st = Some ch -> readyState ch <> Open) ->
  onload_body file offset t st = None.
Proof.
  intros Hclosed. unfold onload_body, channel_send.
  destruct (dataChannel st) as [ch|]; [|reflexivity].
  specialize (Hclosed ch eq_refl).
  destruct (readyState ch); try reflexivity. contradiction.
Qed.

(** One [onload] event sends at most one message, a binary one, and
    leaves the state of the channel as it is. *)
Lemma onload_event_sent (r : Reader) (st : HookState API)
  (ch : RTCDataChannel) :
  dataChannel st = Some ch ->
  exists cs : list bytes,
    dataChannel (fst (onload_event r st))
    = Some {| readyState := readyState ch;
              sent := sent ch ++ map DArrayBuffer cs |}.
Proof.
  intros Hch. unfold onload_event.
  destruct (ReadyState_eqb (readyState ch) Open) eqn:Hopen.
  - assert (Hstate : readyState ch = Open)
      by (destruct (readyState ch); (reflexivity || discriminate)).
    rewrite (onload_body_open _ _ _ _ ch Hch Hstate). cbv zeta.
    exists [slice (file_contents (reader_file r)) (reader_offset r)
              (reader_offset r + CHUNK_SIZE)].
    rewrite Hstate.
    destruct (Z_lt_dec _ _); reflexivity.
  - rewrite onload_body_not_open.
    + exists []. simpl fst. rewrite Hch. f_equal. apply channel_eta.
    + intros ch' Hch' Hstate. rewrite Hch in Hch'. injection Hch' as <-.
      rewrite Hstate in Hopen. discriminate.
Qed.

Lemma load_event_sent (i : nat) (readers : list (option Reader))
  (st : HookState API) (ch : RTCDataChannel) :
  dataChannel st = Some ch ->
  exists cs : list bytes,
    dataChannel (fst (load_event i readers st))
    = Some {| readyState := readyState ch;
              sent := sent ch ++ map DArrayBuffer cs |}.
Proof.
  intros Hch. unfold load_event.
  destruct (nth_error readers i) as [[r|]|];
    try (exists []; simpl fst; rewrite Hch; f_equal; apply channel_eta).
  simpl fst. apply onload_event_sent. exact Hch.
Qed.

(** Whatever the order of the [onload] events of any number of readers,
    all they add to the channel are binary messages. *)
Lemma run_events_sent (schedule : list nat) :
  forall (readers : list (option Reader)) (st : HookState API)
         (ch : RTCDataChannel),
    dataChannel st = Some ch ->
    exists cs : list bytes,
      dataChannel (fst (run_events schedule readers st))
      = Some {| readyState := readyState ch;
                sent := sent ch ++ map DArrayBuffer cs |}.
Proof.
  induction schedule as [|i schedule IH]; intros readers st ch Hch.
  - exists []. simpl. rewrite Hch. f_equal. apply channel_eta.
  - simpl.
    destruct (load_event_sent i readers st ch Hch) as (cs1 & Hstep).
    destruct (IH (snd (load_event i readers st)) _ _ Hstep) as (cs2 & Hrest).
    exists (cs1 ++ cs2). rewrite Hrest. simpl.
    rewrite map_app, app_assoc. reflexivity.
Qed.

Lemma run_events_not_open (schedule : list nat) :
  forall (readers : list (option Reader)) (st : HookState API),
    (forall ch, dataChannel st = Some ch -> readyState ch <> Open) ->
    fst (run_events schedule readers st) = st.
Proof.
  induction schedule as [|i schedule IH]; intros readers st Hclosed;
    [reflexivity|].
  simpl.
  assert (Hstep : fst (load_event i readers st) = st).
  { unfold load_event. destruct (nth_error readers i) as [[r|]|];
      try reflexivity.
    simpl. unfold onload_event.
    rewrite onload_body_not_open by exact Hclosed. reflexivity. }
  rewrite Hstep. apply IH. exact Hclosed.
Qed.

(** The events of a single reader, run until it starts no further read,
    are the loop of [sendFile]. *)
Lemma single_reader_events (file : File) :
  forall (n : nat) (offset t : Z) (st : HookState API),
    (Z.to_nat (file_size file - offset) <= n)%nat ->
    run_events (repeat 0%nat (S n))
      [Some {| reader_file := file; reader_offset := offset;
               reader_transferred := t |}] st
    = (reader_onload file offset t st, [None]).
Proof.
  assert (Hidle : forall k (st : HookState API),
             run_events (repeat 0%nat k) [None] st = (st, [None])).
  { induction k as [|k IHk]; intros st; [reflexivity|]. simpl. apply IHk. }
  assert (Hstep : forall k offset t (st : HookState API),
             run_events (repeat 0%nat (S k))
               [Some {| reader_file := file; reader_offset := offset;
                        reader_transferred := t |}] st
             = match onload_body file offset t st with
               | None => (st, [None])
               | Some st' =>
                   if Z_lt_dec (offset + CHUNK_SIZE) (file_size file) then
                     run_events (repeat 0%nat k)
                       [Some {| reader_file := file;
                                reader_offset := offset + CHUNK_SIZE;
                                reader_transferred :=
                                  t + byteLength
                                        (slice (file_contents file) offset
                                           (offset + CHUNK_SIZE)) |}] st'
                   else (setTransferProgress None st', [None])
               end).
  { intros k offset t st.
    change (repeat 0%nat (S k)) with (0%nat :: repeat 0%nat k).
    cbn [run_events load_event nth_error replace_nth fst snd].
    unfold onload_event. cbn [reader_file reader_offset reader_transferred].
    destruct (onload_body file offset t st) as [st'|];
      [|apply Hidle].
    destruct (Z_lt_dec (offset + CHUNK_SIZE) (file_size file));
      [reflexivity | apply Hidle]. }
  induction n as [|n IH]; intros offset t st Hn;
    rewrite Hstep, reader_onload_equation_1;
    destruct (onload_body file offset t st) as [st'|]; simpl;
    try reflexivity;
    destruct (Z_lt_dec (offset + CHUNK_SIZE) (file_size file)) as [Hlt|Hge];
    simpl; try reflexivity.
  - unfold CHUNK_SIZE in *. lia.
  - apply IH. unfold CHUNK_SIZE in *. lia.
Qed.

Lemma sendFile_sync_then_events (file : File) (st : HookState API) :
  sendFile file st
  = match sendFile_sync file st with
    | (thrown, st', Some r) =>
        (thrown,
         reader_onload (reader_file r) (reader_offset r)
           (reader_transferred r) st')
    | (thrown, st', None) => (thrown, st')
    end.
Proof.
  unfold sendFile, sendFile_sync.
  destruct (dataChannel st) as [ch|]; [|reflexivity].
  destruct (negb (ReadyState_eqb (readyState ch) Open)); [reflexivity|].
  cbv zeta. destruct (channel_send _ ch); reflexivity.
Qed.

Lemma sendFile_sync_open (file : File) (st : HookState API)
  (ch : RTCDataChannel) :
  dataChannel st = Some ch ->
  readyState ch = Open ->
  sendFile_sync file st
  = (None,
     setTransferProgress
       (Some {| fileName := file_name file;
                progress := of_Z 0;
                totalSize := file_size file;
                transferredSize := 0;
                isReceiving := false |})
       (set_dataChannel
          (Some {| readyState := Open;
                   sent := sent ch ++ [metadata_message file] |}) st),
     Some {| reader_file := file; reader_offset := 0;
             reader_transferred := 0 |}).
Proof.
  intros Hch Hopen. unfold sendFile_sync, channel_send.
  rewrite Hch, Hopen. simpl. reflexivity.
Qed.

Lemma sendFiles_loop_open (items : list FileItem) :
  forall (st : HookState API) (ch : RTCDataChannel),
    dataChannel st = Some ch ->
    readyState ch = Open ->
    dataChannel (fst (sendFiles_loop items st))
    = Some {| readyState := Open;
              sent := sent ch
                      ++ map (fun item => metadata_message (fi_file item))
                           items |}
    /\ snd (sendFiles_loop items st)
       = map (fun item => Some {| reader_file := fi_file item;
                                  reader_offset := 0;
                                  reader_transferred := 0 |}) items
    /\ receivedFiles (fst (sendFiles_loop items st)) = receivedFiles st
    /\ receivingFile (fst (sendFiles_loop items st)) = receivingFile st.
Proof.
  induction items as [|item items IH]; intros st ch Hch Hopen.
  - simpl. rewrite Hch, app_nil_r. destruct ch; simpl in *; subst. auto.
  - simpl sendFiles_loop.
    rewrite (sendFile_sync_open (fi_file item) st ch Hch Hopen).
    cbn [fst snd].
    match goal with
    | |- context [sendFiles_loop items ?s] =>
        destruct (IH s {| readyState := Open;
                          sent := sent ch ++ [metadata_message (fi_file item)] |}
                    eq_refl eq_refl) as (Hsent & Hreaders & Hfiles & Hrec)
    end.
    rewrite Hsent, Hreaders, Hfiles, Hrec. simpl.
    rewrite <- app_assoc. auto.
Qed.

(** ** Beyond the claims: the page and its hook *)

Lemma with_hook_same (h : Home API) : with_hook (hook h) h = h.
Proof. destruct h. reflexivity. Qed.

(** X5.  [handleSendFiles] with several files selected.  The calls of
    [sendFile] follow each other before any chunk is read, so the channel
    carries the metadata messages of all files first, and only then, in
    whatever order the reads finish, binary chunks.  A receiver therefore
    ends with at most one new file, under the name of the last file
    selected. *)
Theorem handleSendFiles_announces_all_first (h : Home API)
  (ch : RTCDataChannel) (announced : list File) (last : File)
  (schedule : list nat) (receiver : HookState API) :
  isConnected (hook h) = true ->
  dataChannel (hook h) = Some ch ->
  readyState ch = Open ->
  map fi_file (files h) = announced ++ [last] ->
  exists cs : list bytes,
    dataChannel
      (fst (run_events schedule (snd (handleSendFiles h))
              (hook (fst (handleSendFiles h)))))
    = Some {| readyState := Open;
              sent := sent ch
                      ++ map metadata_message (announced ++ [last])
                      ++ map DArrayBuffer cs |}
    /\ (let receiver' :=
          receiveAll (map metadata_message (announced ++ [last])
                      ++ map DArrayBuffer cs) receiver in
        receivedFiles receiver' = receivedFiles receiver
        \/ exists k : nat,
             receivedFiles receiver'
             = receivedFiles receiver
               ++ [{| rf_name := file_name last;
                      rf_size := file_size last;
                      rf_mimeType := file_type last;
                      rf_data := List.concat (firstn k cs) |}]).
Proof.
  intros Hconnected Hch Hopen Hfiles.
  unfold handleSendFiles. rewrite Hconnected.
  destruct (files h) as [|item items] eqn:Hitems.
  { destruct announced; discriminate. }
  cbn [negb orb List.length Nat.eqb fst snd hook with_hook].
  destruct (sendFiles_loop_open (item :: items) (hook h) ch Hch Hopen)
    as (Hsent & _).
  destruct (run_events_sent schedule
              (snd (sendFiles_loop (item :: items) (hook h)))
              _ _ Hsent) as (cs & Hrun).
  exists cs. split.
  - rewrite Hrun. cbn [readyState sent].
    rewrite <- map_map, Hfiles, <- app_assoc. reflexivity.
  - apply metadata_burst.
Qed.

(** X6.  [handleSendFiles] with a single file selected: when the [onload]
    events of its reader have all run, the channel has carried the
    metadata message and the chunks of the file, the progress is cleared,
    and a receiver of these messages holds the file, byte for byte. *)
Theorem handleSendFiles_single_file (h : Home API) (ch : RTCDataChannel)
  (item : FileItem) (receiver : HookState API) :
  isConnected (hook h) = true ->
  dataChannel (hook h) = Some ch ->
  readyState ch = Open ->
  files h = [item] ->
  let events := repeat 0%nat (S (Z.to_nat (file_size (fi_file item)))) in
  let final := fst (run_events events (snd (handleSendFiles h))
                      (hook (fst (handleSendFiles h)))) in
  exists frames : list ChannelData,
    dataChannel final
    = Some {| readyState := Open; sent := sent ch ++ frames |}
    /\ transferProgress final = None
    /\ receivedFiles (receiveAll frames receiver)
       = receivedFiles receiver
         ++ [{| rf_name := file_name (fi_file item);
                rf_size := file_size (fi_file item);
                rf_mimeType := file_type (fi_file item);
                rf_data := file_contents (fi_file item) |}].
Proof.
  intros Hconnected Hch Hopen Hfiles events final. subst events final.
  pose proof (byteLength_nonneg (file_contents (fi_file item))) as Hsize.
  unfold handleSendFiles. rewrite Hconnected, Hfiles.
  cbn [negb orb List.length Nat.eqb fst snd hook with_hook sendFiles_loop].
  rewrite (sendFile_sync_open (fi_file item) (hook h) ch Hch Hopen).
  cbn [fst snd].
  rewrite single_reader_events by (rewrite Z.sub_0_r; apply Nat.le_refl).
  cbn [fst].
  erewrite (reader_onload_spec (fi_file item)
              (Z.to_nat (file_size (fi_file item))));
    [ | lia | unfold file_size; lia | simpl; reflexivity | reflexivity ].
  exists (metadata_message (fi_file item)
          :: map DArrayBuffer (file_chunks (file_contents (fi_file item)) 0)).
  split; [simpl; rewrite <- app_assoc; reflexivity|].
  split; [reflexivity|].
  rewrite receive_sent_file. reflexivity.
Qed.

Lemma sendFile_sync_not_open (file : File) (st : HookState API) :
  (forall ch, dataChannel st = Some ch -> readyState ch <> Open) ->
  sendFile_sync file st = (Some (Error "Data channel not ready"), st, None).
Proof.
  intros Hclosed. unfold sendFile_sync.
  destruct (dataChannel st) as [ch|]; [|reflexivity].
  specialize (Hclosed ch eq_refl).
  destruct (readyState ch); simpl; try reflexivity. contradiction.
Qed.

Lemma sendFiles_loop_not_open (items : list FileItem) (st : HookState API) :
  (forall ch, dataChannel st = Some ch -> readyState ch <> Open) ->
  sendFiles_loop items st = (st, map (fun _ => None) items).
Proof.
  intros Hclosed. induction items as [|item items IH]; [reflexivity|].
  simpl. rewrite sendFile_sync_not_open by exact Hclosed.
  rewrite IH. reflexivity.
Qed.

(** X7.  [handleSendFiles] while the data channel is missing or not open, as
    it is between the connection reporting "connected" and the channel
    opening: every [sendFile] throws, every exception is swallowed, and
    nothing is sent, set or read. *)
Theorem handleSendFiles_not_ready (h : Home API) :
  (forall ch, dataChannel (hook h) = Some ch -> readyState ch <> Open) ->
  fst (handleSendFiles h) = h
  /\ Forall (fun reader => reader = None) (snd (handleSendFiles h)).
Proof.
  intros Hclosed. unfold handleSendFiles.
  destruct (negb (isConnected (hook h)) || (List.length (files h) =? 0)%nat).
  - split; [reflexivity | constructor].
  - rewrite sendFiles_loop_not_open by exact Hclosed. simpl.
    split; [apply with_hook_same|].
    induction (files h); simpl; constructor; auto.
Qed.

Lemma sendFile_throws_unless_open (file : File) (st : HookState API) :
  (forall ch, dataChannel st = Some ch -> readyState ch <> Open) ->
  sendFile file st = (Some (Error "Data channel not ready"), st).
Proof.
  intros Hclosed. rewrite sendFile_sync_then_events.
  rewrite sendFile_sync_not_open by exact Hclosed. reflexivity.
Qed.

Lemma cleanup_channel_not_open (st : HookState API) :
  forall ch, dataChannel (cleanup st) = Some ch -> readyState ch <> Open.
Proof.
  intros ch. rewrite cleanup_spec. simpl.
  destruct (dataChannel st); simpl; intros Hch; [|discriminate].
  injection Hch as <-. discriminate.
Qed.

(** X8.  [cleanup] cancels a send in progress: after it, [sendFile] throws
    "Data channel not ready", and the [onload] events of reads that were
    under way send nothing and change nothing, in whatever number and
    order they arrive. *)
Theorem cleanup_cancels_sending (st : HookState API) (file : File)
  (schedule : list nat) (readers : list (option Reader)) :
  sendFile file (cleanup st)
  = (Some (Error "Data channel not ready"), cleanup st)
  /\ fst (run_events schedule readers (cleanup st)) = cleanup st.
Proof.
  split.
  - apply sendFile_throws_unless_open, cleanup_channel_not_open.
  - apply run_events_not_open, cleanup_channel_not_open.
Qed.

(** X9.  [startPolling] overwrites [pollingInterval] without stopping the
    timer it held: after two joins the first timer is still running, and
    [cleanup], which stops the timer of the second join, cannot stop it. *)
Theorem second_join_leaks_timer (code1 code2 : string) (st : HookState API) :
  code1 <> ""%string -> code2 <> ""%string ->
  let st2 := snd (joinSession code2 (snd (joinSession code1 st))) in
  pollingInterval st2 = Some (Pos.succ (nextTimer st))
  /\ In (nextTimer st) (timers st2)
  /\ In (nextTimer st) (timers (cleanup st2))
  /\ ~ In (Pos.succ (nextTimer st)) (timers (cleanup st2)).
Proof.
  intros H1 H2 st2.
  assert (Ht1 : truthy code1 = true)
    by (unfold truthy; destruct (String.eqb_spec code1 "");
        [contradiction | reflexivity]).
  assert (Ht2 : truthy code2 = true)
    by (unfold truthy; destruct (String.eqb_spec code2 "");
        [contradiction | reflexivity]).
  assert (Hst2 : pollingInterval st2 = Some (Pos.succ (nextTimer st))
                 /\ timers st2
                    = Pos.succ (nextTimer st) :: nextTimer st :: timers st).
  { subst st2. unfold joinSession, startPolling. simpl.
    rewrite Ht1. simpl. rewrite Ht2. simpl. auto. }
  destruct Hst2 as [Hid Htimers].
  split; [exact Hid|]. split; [rewrite Htimers; simpl; auto|].
  rewrite cleanup_spec. simpl. rewrite Hid, Htimers. split.
  - apply in_in_remove; [|simpl; auto].
    intros Heq. apply (Pos.succ_discr (nextTimer st)). exact Heq.
  - apply remove_In.
Qed.

(** X10.  Sending while a receive is in progress.  A complete [sendFile] leaves
    the receive record and the received files alone, but clears the one
    progress value that both directions share; the chunks that arrive
    afterwards still complete the file being received, with all its
    bytes. *)
Theorem send_during_receive (file : File) (st : HookState API)
  (ch : RTCDataChannel) (rf : ReceivingFile) (init : list bytes)
  (c : bytes) :
  dataChannel st = Some ch ->
  readyState ch = Open ->
  receivingFile st = Some rf ->
  (init <> [] -> receivedSize rf + total_length init < rx_size rf) ->
  rx_size rf <= receivedSize rf + total_length init + byteLength c ->
  let st' := snd (sendFile file st) in
  receivingFile st' = Some rf
  /\ receivedFiles st' = receivedFiles st
  /\ transferProgress st' = None
  /\ receivedFiles (receiveAll (map DArrayBuffer (init ++ [c])) st')
     = receivedFiles st
       ++ [{| rf_name := rx_name rf;
              rf_size := rx_size rf;
              rf_mimeType := rx_mimeType rf;
              rf_data := List.concat (chunks rf ++ init ++ [c]) |}].
Proof.
  intros Hch Hopen Hrf Hbelow Hreach st'. subst st'.
  rewrite (sendFile_open file st ch Hch Hopen). cbn [snd].
  split; [exact Hrf|]. split; [reflexivity|]. split; [reflexivity|].
  erewrite receiveAll_completing;
    [ | simpl; exact Hrf | exact Hbelow | exact Hreach ].
  reflexivity.
Qed.

(** ** Beyond the claims: signaling *)

Lemma handleSignalingMessage_transfer_side (response_ok : bool)
  (message : SignalingMessage API) (st : HookState API) :
  transfer_side (handleSignalingMessage response_ok message st)
  = transfer_side st.
Proof.
  destruct st.
  unfold handleSignalingMessage, signaling_failed, sendSignalingMessage,
    transfer_side. simpl.
  split_cases; reflexivity.
Qed.

Lemma handleAll_transfer_side (response_ok : bool)
  (messages : list (SignalingMessage API)) :
  forall st : HookState API,
    transfer_side (handleAll response_ok messages st) = transfer_side st.
Proof.
  induction messages as [|m messages IH]; intros st; [reflexivity|].
  simpl. rewrite IH. apply handleSignalingMessage_transfer_side.
Qed.

(** X11.  A poll, whatever the relay returns, changes only the peer connection,
    the error and the list of requests made: the connection flags, the
    data channel, the session id, the timers, the files received and the
    transfer in progress are as before. *)
Theorem polling_leaves_transfer_alone
  (response : option (list (SignalingMessage API))) (response_ok : bool)
  (st : HookState API) :
  transfer_side (polling_tick response response_ok st) = transfer_side st.
Proof.
  unfold polling_tick. destruct response as [messages|]; [|reflexivity].
  rewrite handleAll_transfer_side. reflexivity.
Qed.

Lemma handleSignalingMessage_requests (response_ok : bool)
  (message : SignalingMessage API) (st : HookState API) :
  sessionId (handleSignalingMessage response_ok message st) = sessionId st
  /\ (relayRequests (handleSignalingMessage response_ok message st)
      = relayRequests st
      \/ (String.eqb (message_type message) "offer" = true
          /\ exists r, is_answer_post (sessionId st) r
                       /\ relayRequests
                            (handleSignalingMessage response_ok message st)
                          = relayRequests st ++ [r])).
Proof.
  split.
  { pose proof (handleSignalingMessage_transfer_side response_ok message st)
      as Hside. unfold transfer_side in Hside. congruence. }
  unfold handleSignalingMessage.
  destruct (peerConnection st) as [pc|]; [|left; reflexivity].
  destruct (String.eqb (message_type message) "offer") eqn:Hoffer.
  - destruct (JSON_parse (payload message)) as [offer|]; [|left; reflexivity].
    destruct (pc_setRemoteDescription pc offer) as [pc1|];
      [|left; reflexivity].
    destruct (pc_createAnswer pc1) as [answer|]; [|left; reflexivity].
    destruct (pc_setLocalDescription pc1 answer) as [pc2|];
      [|left; reflexivity].
    unfold sendSignalingMessage. simpl sessionId.
    destruct (sessionId st) as [id|] eqn:Hid; [|left; reflexivity].
    unfold truthy. destruct (String.eqb_spec id ""); [left; reflexivity|].
    right. split; [reflexivity|]. eexists. split.
    + exists id, answer. split; [reflexivity|]. split; [assumption|].
      reflexivity.
    + destruct response_ok; reflexivity.
  - left. split_cases; reflexivity.
Qed.

(** X12.  The requests of a poll: one GET for the messages of the session, then
    nothing but answers, posted to the session of the hook, at most one
    for each offer among the messages.  Without a session id no answer is
    posted at all. *)
Theorem polling_requests (response : option (list (SignalingMessage API)))
  (response_ok : bool) (st : HookState API) :
  exists posts : list (RelayRequest API),
    relayRequests (polling_tick response response_ok st)
    = relayRequests st
      ++ GetSignals (match sessionId st with
                     | Some id => id
                     | None => "null"%string
                     end)
         :: posts
    /\ Forall (is_answer_post (sessionId st)) posts
    /\ (List.length posts
        <= List.length (offers (match response with
                                | Some messages => messages
                                | None => []
                                end)))%nat.
Proof.
  unfold polling_tick.
  destruct response as [messages|];
    [|exists []; simpl; split; [reflexivity | split; [constructor | lia]]].
  set (st1 := fetch _ st).
  assert (Hgen : forall (s : HookState API),
             exists posts,
               relayRequests (handleAll response_ok messages s)
               = relayRequests s ++ posts
               /\ Forall (is_answer_post (sessionId s)) posts
               /\ (List.length posts <= List.length (offers messages))%nat).
  { induction messages as [|m messages IH]; intros s.
    - exists []. simpl. rewrite app_nil_r.
      split; [reflexivity | split; [constructor | lia]].
    - simpl handleAll.
      destruct (IH (handleSignalingMessage response_ok m s))
        as (posts & Hposts & Hall & Hlen).
      destruct (handleSignalingMessage_requests response_ok m s)
        as [Hsession [Hsame | (Hoffer & r & Hr & Hadd)]];
        rewrite Hsession in Hall.
      + exists posts. rewrite Hposts, Hsame.
        split; [reflexivity | split; [exact Hall|]].
        unfold offers in *. simpl.
        destruct (String.eqb (message_type m) "offer"); simpl; lia.
      + exists (r :: posts). rewrite Hposts, Hadd, <- app_assoc.
        split; [reflexivity | split; [constructor; assumption|]].
        unfold offers in *. simpl. rewrite Hoffer. simpl. lia. }
  destruct (Hgen st1) as (posts & Hposts & Hall & Hlen).
  exists posts. rewrite Hposts. subst st1. simpl.
  rewrite <- app_assoc. auto.
Qed.

(** X13.  Without a session id, or with the empty one, neither an ICE candidate
    of the browser nor any signaling message makes the hook post to the
    relay: the candidate, or the answer to an offer, is dropped without an
    error of its own. *)
Theorem no_session_no_post (response_ok : bool)
  (candidate : option Descriptor) (messages : list (SignalingMessage API))
  (st : HookState API) :
  sessionId st = None \/ sessionId st = Some ""%string ->
  onicecandidate response_ok candidate st = st
  /\ relayRequests (handleAll response_ok messages st) = relayRequests st.
Proof.
  intros Hsession. split.
  - unfold onicecandidate.
    destruct candidate; [|reflexivity].
    destruct Hsession as [-> | ->]; reflexivity.
  - revert st Hsession.
    induction messages as [|m messages IH]; intros st Hsession;
      [reflexivity|].
    simpl.
    destruct (handleSignalingMessage_requests response_ok m st)
      as [Hsame [Hreq | (_ & r & (id & answer & Hid & Hne & _) & _)]].
    + rewrite IH by (rewrite Hsame; exact Hsession). exact Hreq.
    + exfalso. destruct Hsession as [Hs | Hs]; rewrite Hs in Hid;
        [discriminate | injection Hid as <-; contradiction].
Qed.

(** ** Beyond the claims: the list of selected files and the join form *)

Lemma trimStart_blank (s : string) : blank s = true -> trimStart s = ""%string.
Proof.
  induction s as [|c s IH]; simpl; [reflexivity|].
  destruct (isWhiteSpace c); simpl; [exact IH | discriminate].
Qed.

Lemma trimEnd_not_empty (c : Ascii.ascii) (s : string) :
  isWhiteSpace c = false -> trimEnd (String c s) <> ""%string.
Proof.
  intros Hc. simpl. rewrite Hc. destruct (trimEnd s); discriminate.
Qed.

Lemma trim_empty_iff_blank (s : string) :
  trim s = ""%string <-> blank s = true.
Proof.
  unfold trim. split.
  - induction s as [|c s IH]; simpl; [reflexivity|].
    destruct (isWhiteSpace c) eqn:Hc; simpl; [exact IH|].
    intros Hempty. exfalso. revert Hempty.
    apply (trimEnd_not_empty c s Hc).
  - intros Hblank. rewrite trimStart_blank by exact Hblank. reflexivity.
Qed.

(** X14.  [handleJoinSession] does nothing for a code of white space only.  For
    any other code it joins with the code exactly as typed, white space
    around it included, and the polling starts. *)
Theorem handleJoinSession_joins_unless_blank (h : Home API) :
  (blank (joinCode h) = true -> handleJoinSession h = h)
  /\ (blank (joinCode h) = false ->
      let h' := handleJoinSession h in
      sessionId (hook h') = Some (joinCode h)
      /\ isConnecting (hook h') = true
      /\ pollingInterval (hook h') = Some (nextTimer (hook h))
      /\ timers (hook h') = nextTimer (hook h) :: timers (hook h)
      /\ files h' = files h /\ shareCode h' = shareCode h
      /\ joinCode h' = joinCode h).
Proof.
  unfold handleJoinSession, truthy. split; intros Hblank.
  - apply trim_empty_iff_blank in Hblank. rewrite Hblank. reflexivity.
  - destruct (String.eqb_spec (trim (joinCode h)) "") as [Hempty|Hfull].
    + apply trim_empty_iff_blank in Hempty. congruence.
    + assert (Hcode : String.eqb (joinCode h) "" = false).
      { destruct (String.eqb_spec (joinCode h) "") as [Heq|]; [|reflexivity].
        rewrite Heq in Hblank. discriminate. }
      cbn [negb]. unfold joinSession, startPolling, truthy. simpl.
      rewrite Hcode. simpl. repeat split.
Qed.

Lemma filter_keeps_others (id : string) (l : list FileItem) :
  ~ In id (map fi_id l) ->
  filter (fun f => negb (String.eqb (fi_id f) id)) l = l.
Proof.
  induction l as [|f l IH]; intros Hfresh; [reflexivity|].
  simpl in *. destruct (String.eqb_spec (fi_id f) id) as [Heq|Hne].
  - exfalso. apply Hfresh. left. exact Heq.
  - simpl. rewrite IH; [reflexivity|]. intros Hin. apply Hfresh. right.
    exact Hin.
Qed.

(** X15.  Selecting one file and removing it again gives back the page as it
    was, provided the identifier drawn for the file is not that of a file
    already in the list. *)
Theorem select_then_remove (id : string) (file : File) (h : Home API) :
  ~ In id (map fi_id (files h)) ->
  removeFile id (handleFileSelect [(id, file)] h) = h.
Proof.
  intros Hfresh. destruct h as [fs dragging share join st].
  unfold removeFile, handleFileSelect, setFiles. simpl in *. f_equal.
  rewrite filter_app, filter_keeps_others by exact Hfresh.
  simpl. rewrite String.eqb_refl. simpl. apply app_nil_r.
Qed.

(** X16.  While the identifiers in the list are distinct, [removeFile] takes
    out the one file with the given identifier and keeps all the others
    in their order; the identifiers stay distinct. *)
Theorem removeFile_removes_one (item : FileItem)
  (before after : list FileItem) (h : Home API) :
  NoDup (map fi_id (files h)) ->
  files h = before ++ item :: after ->
  files (removeFile (fi_id item) h) = before ++ after
  /\ NoDup (map fi_id (files (removeFile (fi_id item) h)))
  /\ hook (removeFile (fi_id item) h) = hook h.
Proof.
  intros Hnodup Hfiles.
  assert (Hresult : files (removeFile (fi_id item) h) = before ++ after).
  { unfold removeFile, setFiles. simpl. rewrite Hfiles in *.
    rewrite map_app in Hnodup. simpl in Hnodup.
    apply NoDup_remove in Hnodup as [_ Hfresh].
    rewrite filter_app. simpl. rewrite String.eqb_refl. simpl.
    rewrite !filter_keeps_others; [reflexivity | | ];
      intros Hin; apply Hfresh, in_or_app; auto. }
  split; [exact Hresult|]. split; [|reflexivity].
  rewrite Hresult. rewrite Hfiles, map_app in Hnodup. simpl in Hnodup.
  apply NoDup_remove in Hnodup as [Hnodup _].
  rewrite map_app. exact Hnodup.
Qed.

(** X17.  [handleFileSelect] keeps the files already selected, in place, and
    adds the new ones behind them in the order of the selection.  If the
    identifiers drawn are distinct and new, all identifiers in the list
    stay distinct. *)
Theorem handleFileSelect_appends (selected : list (string * File))
  (h : Home API) :
  NoDup (map fi_id (files h)) ->
  NoDup (map fst selected) ->
  (forall id, In id (map fst selected) -> ~ In id (map fi_id (files h))) ->
  let h' := handleFileSelect selected h in
  firstn (List.length (files h)) (files h') = files h
  /\ map fi_file (skipn (List.length (files h)) (files h'))
     = map snd selected
  /\ NoDup (map fi_id (files h')).
Proof.
  intros Hold Hnew Hdisjoint h'. subst h'.
  unfold handleFileSelect, setFiles. cbn [files].
  split; [|split].
  - rewrite firstn_app, Nat.sub_diag, firstn_all. simpl. apply app_nil_r.
  - rewrite skipn_app, Nat.sub_diag, skipn_all. simpl.
    rewrite map_map. reflexivity.
  - rewrite map_app, map_map. simpl.
    apply NoDup_app; [exact Hold | exact Hnew |].
    intros id Hin Hin'. apply (Hdisjoint id Hin' Hin).
Qed.

(** ** Beyond the claims: what survives, and what a reset leaves *)

Lemma handleIncomingData_error (d : ChannelData) (st : HookState API) :
  error (handleIncomingData d st) = error st.
Proof.
  unfold handleIncomingData.
  destruct d as [[|[|o|]]|data|data]; simpl; try reflexivity.
  - destruct (String.eqb (md_type o) "metadata"); reflexivity.
  - destruct (receivingFile st) as [rf|]; [|reflexivity].
    destruct (Z_lt_dec (receivedSize rf + byteLength data) (rx_size rf)).
    + rewrite receiveChunk_partial by assumption. reflexivity.
    + rewrite receiveChunk_complete by lia. reflexivity.
Qed.

Lemma receiveAll_error (frames : list ChannelData) :
  forall st : HookState API, error (receiveAll frames st) = error st.
Proof.
  induction frames as [|d frames IH]; intros st; [reflexivity|].
  rewrite receiveAll_cons, IH. apply handleIncomingData_error.
Qed.

Lemma onload_event_error (r : Reader) (st : HookState API) :
  error (fst (onload_event r st)) = error st.
Proof.
  unfold onload_event, onload_body.
  destruct (dataChannel st) as [ch|]; [|reflexivity].
  destruct (channel_send _ ch); [|reflexivity].
  destruct (Z_lt_dec _ _); reflexivity.
Qed.

Lemma run_events_error (schedule : list nat) :
  forall (readers : list (option Reader)) (st : HookState API),
    error (fst (run_events schedule readers st)) = error st.
Proof.
  induction schedule as [|i schedule IH]; intros readers st; [reflexivity|].
  simpl. rewrite IH. unfold load_event.
  destruct (nth_error readers i) as [[r|]|]; try reflexivity.
  apply onload_event_error.
Qed.

Lemma sendFile_error (file : File) (st : HookState API) :
  error (snd (sendFile file st)) = error st.
Proof.
  destruct (dataChannel st) as [ch|] eqn:Hch.
  - destruct (readyState ch) eqn:Hstate;
      try (rewrite sendFile_throws_unless_open; [reflexivity|];
           intros ch' Hch'; rewrite Hch in Hch'; injection Hch' as <-;
           congruence).
    rewrite (sendFile_open file st ch Hch Hstate). reflexivity.
  - rewrite sendFile_throws_unless_open; [reflexivity|].
    intros ch' Hch'. rewrite Hch in Hch'. discriminate.
Qed.

(** X18.  No handler of the hook clears the error: once one is set, receiving,
    sending, the events of the channel and of the connection, polling and
    [cleanup] all leave an error in place.  Only [joinSession] and
    [createSession] reset it. *)
Theorem error_is_sticky (st : HookState API) (frames : list ChannelData)
  (file : File) (schedule : list nat) (readers : list (option Reader))
  (connectionState : ConnectionState)
  (response : option (list (SignalingMessage API))) (response_ok : bool)
  (candidate : option Descriptor) :
  error st <> None ->
  error (receiveAll frames st) = error st
  /\ error (snd (sendFile file st)) = error st
  /\ error (fst (run_events schedule readers st)) = error st
  /\ error (cleanup st) = error st
  /\ error (channel_onopen st) = error st
  /\ error (onconnectionstatechange connectionState st) <> None
  /\ error (polling_tick response response_ok st) <> None
  /\ error (onicecandidate response_ok candidate st) <> None.
Proof.
  intros Herr.
  split; [apply receiveAll_error|].
  split; [apply sendFile_error|].
  split; [apply run_events_error|].
  split; [rewrite cleanup_spec; reflexivity|].
  split; [unfold channel_onopen; destruct (dataChannel st); reflexivity|].
  split; [destruct connectionState; simpl; (exact Herr || discriminate)|].
  split.
  - unfold polling_tick. destruct response as [messages|]; [|exact Herr].
    apply handleAll_keeps_error. exact Herr.
  - unfold onicecandidate, sendSignalingMessage.
    destruct candidate; [|exact Herr].
    destruct (sessionId st) as [id|]; [|exact Herr].
    destruct (truthy id); [|exact Herr].
    destruct response_ok; simpl; [exact Herr | discriminate].
Qed.

Lemma handleAll_no_session (response_ok : bool)
  (messages : list (SignalingMessage API)) :
  forall st : HookState API,
    sessionId st = None \/ sessionId st = Some ""%string ->
    relayRequests (handleAll response_ok messages st) = relayRequests st.
Proof.
  induction messages as [|m messages IH]; intros st Hsession;
    [reflexivity|].
  simpl.
  destruct (handleSignalingMessage_requests response_ok m st)
    as [Hsame [Hreq | (_ & r & (id & answer & Hid & Hne & _) & _)]].
  - rewrite IH by (rewrite Hsame; exact Hsession). exact Hreq.
  - exfalso. destruct Hsession as [Hs | Hs]; rewrite Hs in Hid;
      [discriminate | injection Hid as <-; contradiction].
Qed.

(** X19.  A polling timer that is still running after [cleanup] asks the relay
    for the messages of the session "null", and whatever comes back, the
    hook posts nothing. *)
Theorem polling_after_cleanup
  (response : option (list (SignalingMessage API))) (response_ok : bool)
  (st : HookState API) :
  relayRequests (polling_tick response response_ok (cleanup st))
  = relayRequests st ++ [GetSignals "null"].
Proof.
  unfold polling_tick. rewrite cleanup_spec. cbn [sessionId].
  destruct response as [messages|]; [|reflexivity].
  rewrite handleAll_no_session by (left; reflexivity). reflexivity.
Qed.

(** X20.  After [resetSession] the page holds no files and no codes and its
    hook has been cleaned up, so that neither Send nor Join does anything
    until files are selected or a code is typed again.  The error of the
    hook and the dragging flag are as before. *)
Theorem resetSession_page_inert (h : Home API) :
  let h' := resetSession h in
  files h' = [] /\ shareCode h' = ""%string /\ joinCode h' = ""%string
  /\ hook h' = cleanup (hook h)
  /\ isDragging h' = isDragging h
  /\ error (hook h') = error (hook h)
  /\ handleSendFiles h' = (h', [])
  /\ handleJoinSession h' = h'.
Proof.
  intros h'. subst h'. unfold resetSession.
  do 5 (split; [reflexivity|]).
  split; [cbn [hook setFiles setJoinCode setShareCode with_hook];
          rewrite cleanup_spec; reflexivity|].
  split; [|reflexivity].
  unfold handleSendFiles. cbn [hook setFiles setJoinCode setShareCode with_hook].
  rewrite cleanup_spec. reflexivity.
Qed.

End Properties.

(** ** Beyond the claims: createSession *)

Section SessionProperties.

Context {API : PeerConnectionAPI} {Offer : OfferAPI}.

(** The state that a successful [createSession] leaves. *)
Lemma createSession_cases (create_response : option string)
  (offer_ok : bool) (st : HookState API) :
  (fst (createSession create_response offer_ok st) = None
   /\ error (snd (createSession create_response offer_ok st))
      = Some "Failed to create session"%string
   /\ isConnecting (snd (createSession create_response offer_ok st)) = false
   /\ timers (snd (createSession create_response offer_ok st)) = timers st
   /\ pollingInterval (snd (createSession create_response offer_ok st))
      = pollingInterval st
   /\ relayRequests (snd (createSession create_response offer_ok st))
      = relayRequests st
   /\ match create_response with
      | None =>
          snd (createSession create_response offer_ok st)
          = setIsConnecting false
              (setError (Some "Failed to create session"%string) st)
      | Some session_id =>
          sessionId (snd (createSession create_response offer_ok st))
          = Some session_id
          /\ peerConnection (snd (createSession create_response offer_ok st))
             <> None
      end)
  \/ (exists (session_id : string) (pc2 : RTCPeerConnection)
             (offer : Descriptor),
        create_response = Some session_id
        /\ createSession create_response offer_ok st
           = (Some session_id,
              startPolling
                (sendSignalingMessage offer_ok
                   {| message_type := "offer";
                      payload := JSON_stringify offer |}
                   (set_peerConnection (Some pc2)
                      (setupDataChannel
                         {| readyState := Connecting; sent := [] |}
                         (set_sessionId (Some session_id)
                            (setError None (setIsConnecting true st)))))))).
Proof.
  unfold createSession.
  destruct create_response as [session_id|];
    [|left; destruct st; simpl; repeat split].
  destruct (pc_createDataChannel pc_new) as [pc1|];
    [|left; simpl; repeat split; discriminate].
  destruct (pc_createOffer pc1) as [offer|];
    [|left; simpl; repeat split; discriminate].
  destruct (pc_setLocalDescription pc1 offer) as [pc2|];
    [|left; simpl; repeat split; discriminate].
  right. exists session_id, pc2, offer. split; reflexivity.
Qed.

(** X21.  What [createSession] leaves behind when it throws.  The error is
    "Failed to create session" and [isConnecting] is false; no timer is
    started and nothing is posted.  If the relay did not answer, nothing
    else has changed.  If it did, the failure is not undone: the session
    id stays adopted and the connection stays in place. *)
Theorem createSession_failure (create_response : option string)
  (offer_ok : bool) (st : HookState API) :
  fst (createSession create_response offer_ok st) = None ->
  let st' := snd (createSession create_response offer_ok st) in
  error st' = Some "Failed to create session"%string
  /\ isConnecting st' = false
  /\ timers st' = timers st
  /\ pollingInterval st' = pollingInterval st
  /\ relayRequests st' = relayRequests st
  /\ match create_response with
     | None =>
         st' = setIsConnecting false
                 (setError (Some "Failed to create session"%string) st)
     | Some session_id =>
         sessionId st' = Some session_id /\ peerConnection st' <> None
     end.
Proof.
  intros Hthrown.
  destruct (createSession_cases create_response offer_ok st)
    as [(_ & Hrest) | (id & pc2 & offer & _ & Hok)].
  - exact Hrest.
  - rewrite Hok in Hthrown. discriminate.
Qed.

Lemma createSession_returned (create_response : option string)
  (offer_ok : bool) (st : HookState API) (session_id : string) :
  fst (createSession create_response offer_ok st) = Some session_id ->
  let st' := snd (createSession create_response offer_ok st) in
  create_response = Some session_id
  /\ sessionId st' = Some session_id
  /\ isConnecting st' = true
  /\ dataChannel st' = Some {| readyState := Connecting; sent := [] |}
  /\ peerConnection st' <> None
  /\ if String.eqb session_id "" then
       relayRequests st' = relayRequests st
       /\ timers st' = timers st
       /\ error st' = None
     else
       (exists offer : Descriptor,
          relayRequests st'
          = relayRequests st
            ++ [PostSignal session_id
                  {| message_type := "offer";
                     payload := JSON_stringify offer |}])
       /\ pollingInterval st' = Some (nextTimer st)
       /\ timers st' = nextTimer st :: timers st
       /\ error st' = if offer_ok then None
                      else Some "Failed to send signaling message"%string.
Proof.
  intros Hreturned.
  destruct (createSession_cases create_response offer_ok st)
    as [(Hnone & _) | (id & pc2 & offer & Hresponse & Hok)].
  - rewrite Hnone in Hreturned. discriminate.
  - rewrite Hok in *. cbn [fst snd] in *. injection Hreturned as ->.
    split; [exact Hresponse|].
    unfold sendSignalingMessage, startPolling, truthy. simpl.
    destruct (String.eqb session_id "") eqn:Hempty; simpl;
      rewrite ?Hempty; simpl.
    + repeat split; try reflexivity; discriminate.
    + destruct offer_ok; simpl; rewrite ?Hempty; simpl;
        repeat split; try reflexivity;
        try discriminate; exists offer; reflexivity.
Qed.

(** X22.  What [createSession] leaves behind when it returns.  The id returned
    is the one the relay gave and the hook adopted; the data channel has
    been created and is still connecting.  For an id that is not empty
    the offer has been posted to that session and the polling started,
    and the call returns in the same way when the relay refused the
    offer: only the error then tells.  For the empty id neither request
    nor polling happens, and no error is set. *)
Theorem createSession_success (create_response : option string)
  (offer_ok : bool) (st : HookState API) (session_id : string) :
  fst (createSession create_response offer_ok st) = Some session_id ->
  let st' := snd (createSession create_response offer_ok st) in
  create_response = Some session_id
  /\ sessionId st' = Some session_id
  /\ isConnecting st' = true
  /\ dataChannel st' = Some {| readyState := Connecting; sent := [] |}
  /\ peerConnection st' <> None
  /\ if String.eqb session_id "" then
       relayRequests st' = relayRequests st
       /\ timers st' = timers st
       /\ error st' = None
     else
       (exists offer : Descriptor,
          relayRequests st'
          = relayRequests st
            ++ [PostSignal session_id
                  {| message_type := "offer";
                     payload := JSON_stringify offer |}])
       /\ pollingInterval st' = Some (nextTimer st)
       /\ timers st' = nextTimer st :: timers st
       /\ error st' = if offer_ok then None
                      else Some "Failed to send signaling message"%string.
Proof. apply createSession_returned. Qed.

(** X23.  After [createSession] has returned, the channel is not yet usable:
    [sendFile] throws and changes nothing.  Once the channel has opened,
    the hook reports [isConnected], and [sendFile] sends the metadata
    message of the file followed by its chunks. *)
Theorem createSession_then_send (create_response : option string)
  (offer_ok : bool) (st : HookState API) (session_id : string)
  (file : File) :
  fst (createSession create_response offer_ok st) = Some session_id ->
  let st' := snd (createSession create_response offer_ok st) in
  sendFile file st' = (Some (Error "Data channel not ready"), st')
  /\ isConnected (channel_onopen st') = true
  /\ isConnecting (channel_onopen st') = false
  /\ fst (sendFile file (channel_onopen st')) = None
  /\ dataChannel (snd (sendFile file (channel_onopen st')))
     = Some {| readyState := Open;
               sent := metadata_message file
                       :: map DArrayBuffer
                            (file_chunks (file_contents file) 0) |}.
Proof.
  intros Hreturned st'.
  destruct (createSession_returned create_response offer_ok st session_id
              Hreturned) as (_ & _ & _ & Hch & _).
  fold st' in Hch. split.
  - apply sendFile_throws_unless_open. intros ch Hch'.
    rewrite Hch in Hch'. injection Hch' as <-. discriminate.
  - assert (Hopen : dataChannel (channel_onopen st')
                    = Some {| readyState := Open; sent := [] |}).
    { unfold channel_onopen. rewrite Hch. reflexivity. }
    unfold channel_onopen at 1 2. rewrite Hch.
    split; [reflexivity|]. split; [reflexivity|].
    rewrite (sendFile_open file _ _ Hopen eq_refl). split; reflexivity.
Qed.

(** X24.  The share code that [generateShareCode] displays is the session id
    that the hook has adopted; when [createSession] throws, the code
    displayed stays as it was. *)
Theorem generateShareCode_shows_session (create_response : option string)
  (offer_ok : bool) (h : Home API) :
  let h' := generateShareCode create_response offer_ok h in
  match fst (createSession create_response offer_ok (hook h)) with
  | Some session_id =>
      shareCode h' = session_id /\ sessionId (hook h') = Some session_id
  | None =>
      shareCode h' = shareCode h
      /\ error (hook h') = Some "Failed to create session"%string
  end
  /\ files h' = files h /\ joinCode h' = joinCode h.
Proof.
  intros h'. subst h'. unfold generateShareCode.
  destruct (createSession create_response offer_ok (hook h))
    as [[session_id|] st'] eqn:Hcreate; cbn [fst].
  - destruct (createSession_returned create_response offer_ok (hook h)
                session_id) as (_ & Hid & _);
      [rewrite Hcreate; reflexivity|].
    rewrite Hcreate in Hid. simpl in *. auto.
  - destruct (createSession_cases create_response offer_ok (hook h))
      as [(_ & Herr & _) | (id & pc2 & offer & _ & Hok)].
    + rewrite Hcreate in Herr. simpl in *. auto.
    + rewrite Hok in Hcreate. discriminate.
Qed.

End SessionProperties.

(** * The theorems at work

    Each theorem with a premise is applied here to a sample state, and each
    statement of the specification that the code does not satisfy is
    refuted on one. *)

Import Browser Samples.

Lemma sendFile_roundtrip_witness :
  exists (sender' : HookState Browser.api) (cs : list bytes),
    sendFile small_file sender_ready = (None, sender')
    /\ dataChannel sender'
       = Some {| readyState := Open;
                 sent := [] ++ metadata_message small_file
                               :: map DArrayBuffer cs |}
    /\ Forall (fun c => byteLength c <= CHUNK_SIZE) cs
    /\ List.concat cs = file_contents small_file
    /\ (let receiver' :=
          receiveAll (metadata_message small_file :: map DArrayBuffer cs)
            initial in
        receivedFiles receiver'
        = receivedFiles initial
          ++ [{| rf_name := file_name small_file;
                 rf_size := file_size small_file;
                 rf_mimeType := file_type small_file;
                 rf_data := file_contents small_file |}]
        /\ receivingFile receiver' = None
        /\ transferProgress receiver' = None).
Proof.
  exact (sendFile_roundtrip small_file sender_ready initial
           {| readyState := Open; sent := [] |} eq_refl eq_refl).
Defined.


Lemma receive_completes_on_reaching_size_witness :
  receivedFiles
    (receiveAll
       (DString (Json (JObject (metadata_of "f.bin" 5)))
        :: map DArrayBuffer [[x01; x02]]) receiver_midway)
  = receivedFiles receiver_midway
  /\ receivedFiles
       (receiveAll
          (DString (Json (JObject (metadata_of "f.bin" 5)))
           :: map DArrayBuffer ([[x01; x02]] ++ [[x03; x04; x05]]))
          receiver_midway)
     = receivedFiles receiver_midway
       ++ [{| rf_name := "f.bin";
              rf_size := 5;
              rf_mimeType := "text/plain";
              rf_data := List.concat ([[x01; x02]] ++ [[x03; x04; x05]]) |}].
Proof.
  destruct (receive_completes_on_reaching_size
              (metadata_of "f.bin" 5) receiver_midway
              [[x01; x02]] [[x01; x02]] [x03; x04; x05] eq_refl)
    as [Hpartial Hcomplete].
  split.
  - apply Hpartial. reflexivity.
  - apply Hcomplete.
    + intros _. reflexivity.
    + simpl. lia.
Defined.

(** C2 as the specification states it fails: a chunk of eight bytes
    completes a file declared with five, and the file exposed holds the
    eight. *)
Lemma receive_completes_past_size :
  let st := receiveAll
              [DString (Json (JObject (metadata_of "f.bin" 5)));
               DArrayBuffer eight_bytes] (@initial Browser.api) in
  receivedFiles st
  = [{| rf_name := "f.bin"; rf_size := 5; rf_mimeType := "text/plain";
        rf_data := eight_bytes |}]
  /\ byteLength eight_bytes <> md_size (metadata_of "f.bin" 5).
Proof. split; [reflexivity | discriminate]. Qed.

Lemma sendFile_channel_not_ready_witness :
  sendFile small_file sender_waiting
  = (Some (Error "Data channel not ready"), sender_waiting).
Proof.
  apply sendFile_channel_not_ready.
  intros ch Hch. injection Hch as <-. discriminate.
Defined.

Lemma transfer_progress_history_witness :
  exists (sender' : HookState Browser.api) (frames : list ChannelData)
         (sent_log received_log : list (option FileTransferProgress)),
    sendFile small_file sender_ready = (None, sender')
    /\ dataChannel sender'
       = Some {| readyState := Open; sent := [] ++ frames |}
    /\ progressLog sender' = progressLog sender_ready ++ sent_log
    /\ progress_history_ok sent_log
    /\ progressLog (receiveAll frames receiver_midway)
       = progressLog receiver_midway ++ received_log
    /\ progress_history_ok received_log.
Proof.
  exact (transfer_progress_history small_file sender_ready receiver_midway
           {| readyState := Open; sent := [] |} eq_refl eq_refl eq_refl).
Defined.

(** C4 as the specification states it fails for the empty file: the
    percentage computed for its only chunk is 0/0*100, which is NaN, on
    the sending and on the receiving side.  On the receiving side the
    percentage also passes 100 when more bytes arrive than were declared:
    eight bytes for a file declared with five give 160. *)
Lemma empty_file_progress_is_NaN :
  let sender' := snd (sendFile empty_file sender_ready) in
  let frames := [metadata_message empty_file; DArrayBuffer []] in
  let last_sent :=
    {| fileName := "empty"; progress := NaN; totalSize := 0;
       transferredSize := 0; isReceiving := false |} in
  let last_received :=
    {| fileName := "empty"; progress := NaN; totalSize := 0;
       transferredSize := 0; isReceiving := true |} in
  option_map sent (dataChannel sender') = Some frames
  /\ progressLog sender'
     = [Some {| fileName := "empty"; progress := of_Z 0; totalSize := 0;
                transferredSize := 0; isReceiving := false |};
        Some last_sent; None]
  /\ progressLog (receiveAll frames (@initial Browser.api))
     = [Some {| fileName := "empty"; progress := of_Z 0; totalSize := 0;
                transferredSize := 0; isReceiving := true |};
        Some last_received; None]
  /\ ~ in_percent_range (progress last_sent)
  /\ progress last_sent <> of_Z 100
  /\ ~ in_percent_range (progress last_received)
  /\ progress last_received <> of_Z 100
  /\ progressLog
       (receiveAll [DString (Json (JObject (metadata_of "f.bin" 5)));
                    DArrayBuffer eight_bytes] (@initial Browser.api))
     = [Some {| fileName := "f.bin"; progress := of_Z 0; totalSize := 5;
                transferredSize := 0; isReceiving := true |};
        Some {| fileName := "f.bin"; progress := of_Z 160; totalSize := 5;
                transferredSize := 8; isReceiving := true |};
        None].
Proof.
  repeat split; try reflexivity; try discriminate; simpl; tauto.
Qed.

Lemma metadata_restarts_receive_witness :
  let st' := handleIncomingData
               (DString (Json (JObject (metadata_of "second.txt" 7))))
               receiver_midway in
  receivingFile st'
  = Some {| rx_name := "second.txt";
            rx_size := 7;
            rx_mimeType := "text/plain";
            receivedSize := 0;
            chunks := [] |}
  /\ transferProgress st'
     = Some {| fileName := "second.txt";
               progress := of_Z 0;
               totalSize := 7;
               transferredSize := 0;
               isReceiving := true |}
  /\ receivedFiles st' = receivedFiles receiver_midway
  /\ dataChannel st' = dataChannel receiver_midway
  /\ peerConnection st' = peerConnection receiver_midway
  /\ isConnected st' = isConnected receiver_midway
  /\ error st' = error receiver_midway.
Proof.
  exact (metadata_restarts_receive (metadata_of "second.txt" 7)
           receiver_midway eq_refl).
Defined.

(** C5 as the specification states it fails: with 4 of the 10 bytes of
    first.txt received, the metadata of second.txt is not ignored; the
    record of first.txt and its chunk are gone, and the progress restarts. *)
Lemma metadata_midway_not_ignored :
  let st' := handleIncomingData
               (DString (Json (JObject (metadata_of "second.txt" 7))))
               receiver_midway in
  receivingFile receiver_midway
  = Some {| rx_name := "first.txt"; rx_size := 10;
            rx_mimeType := "text/plain"; receivedSize := 4;
            chunks := [[x01; x02; x03; x04]] |}
  /\ receivingFile st' <> receivingFile receiver_midway
  /\ transferProgress st' <> transferProgress receiver_midway.
Proof. repeat split; try reflexivity; discriminate. Qed.

Lemma chunk_without_metadata_ignored_witness :
  handleIncomingData (DArrayBuffer eight_bytes) joined = joined.
Proof. apply chunk_without_metadata_ignored. reflexivity. Defined.

Lemma cleanup_resets_and_is_idempotent_witness :
  let st' := cleanup connection_failed in
  isConnected st' = false
  /\ isConnecting st' = false
  /\ transferProgress st' = None
  /\ receivedFiles st' = []
  /\ sessionId st' = None
  /\ receivingFile st' = None
  /\ (forall id,
        pollingInterval connection_failed = Some id -> ~ In id (timers st'))
  /\ error st' = error connection_failed
  /\ forget_history (cleanup st') = forget_history st'
  /\ forget_history (cleanup (@initial Browser.api)) = initial.
Proof.
  apply (cleanup_resets_and_is_idempotent connection_failed).
  intros pc. reflexivity.
Defined.

(** C7 as the specification states it fails: after a connection failure
    two cleanups in a row leave the error "Connection failed" in the state
    that the hook returns, which the state of a fresh hook does not have. *)
Lemma cleanup_keeps_error :
  error (cleanup (cleanup connection_failed))
  = Some "Connection failed"%string
  /\ error (@initial Browser.api) = None
  /\ forget_history (cleanup (cleanup connection_failed)) <> initial.
Proof. repeat split; try reflexivity. discriminate. Qed.

Lemma candidate_applied_on_arrival_witness :
  let st' := handleSignalingMessage true
               {| message_type := "candidate";
                  payload := JSON_stringify "candidate:1"%string |} joined in
  match pc_addIceCandidate Browser.create "candidate:1"%string with
  | Some pc' => st' = set_peerConnection (Some pc') joined
  | None =>
      st' = setError (Some "Failed to handle signaling message"%string) joined
      /\ peerConnection (handleAll true [offer_message] st')
         = peerConnection (handleAll true [offer_message] joined)
      /\ error (handleAll true [offer_message] st') <> None
  end.
Proof.
  exact (candidate_applied_on_arrival true joined Browser.create
           "candidate:1"%string [offer_message] eq_refl).
Defined.

(** C8 as the specification states it fails: a candidate that reaches a
    joined receiver before the offer is rejected by the connection, which
    has no remote description yet.  The hook raises its error and keeps no
    copy: once the offer has been applied and answered, the connection
    still has no candidate. *)
Lemma early_candidate_is_dropped :
  let st := handleAll true [candidate_message; offer_message] joined in
  error joined = None
  /\ error (handleSignalingMessage true candidate_message joined)
     = Some "Failed to handle signaling message"%string
  /\ error st = Some "Failed to handle signaling message"%string
  /\ option_map Browser.remoteDescription (peerConnection st)
     = Some (Some "offer"%string)
  /\ option_map Browser.candidates (peerConnection st) = Some []
  /\ option_map Browser.candidates
       (peerConnection
          (handleAll true [offer_message; candidate_message] joined))
     = Some ["candidate:1"%string].
Proof. repeat split. Qed.

(** C10 as the specification states it fails for the empty code:
    [joinSession] adopts it, and starts no polling. *)
Lemma joinSession_empty_code_no_polling :
  let result := joinSession "" (@initial Browser.api) in
  fst result = ""%string
  /\ sessionId (snd result) = Some ""%string
  /\ isConnecting (snd result) = true
  /\ pollingInterval (snd result) = None
  /\ timers (snd result) = []
  /\ pollingInterval (snd (joinSession "AB12CD" (@initial Browser.api)))
     = Some 1%positive.
Proof. repeat split. Qed.

(** A file of 40000 bytes travels as three chunks of 16384, 16384 and 7232
    bytes. *)
Example large_file_chunks :
  map byteLength (file_chunks (file_contents large_file) 0)
  = [16384; 16384; 7232].
Proof. vm_compute. reflexivity. Qed.

(** * The further theorems at work *)

Import BrowserOffer PageSamples.

Lemma receive_needs_metadata_witness :
  receiveAll stray_messages joined = joined.
Proof.
  apply receive_needs_metadata; reflexivity.
Defined.

Lemma receive_keeps_files_complete_witness :
  record_consistent
    (receiveAll (DString (Json (JObject (metadata_of "f.bin" 5)))
                 :: stray_messages) receiver_midway)
  /\ files_complete
       (receiveAll (DString (Json (JObject (metadata_of "f.bin" 5)))
                    :: stray_messages) receiver_midway).
Proof.
  apply receive_keeps_files_complete.
  - reflexivity.
  - constructor.
Defined.

Lemma handleSendFiles_announces_all_first_witness :
  exists cs : list bytes,
    dataChannel
      (fst (run_events [1%nat; 0%nat; 1%nat]
              (snd (handleSendFiles home_ready))
              (hook (fst (handleSendFiles home_ready)))))
    = Some {| readyState := Open;
              sent := []
                      ++ map metadata_message ([small_file] ++ [empty_file])
                      ++ map DArrayBuffer cs |}
    /\ (let receiver' :=
          receiveAll (map metadata_message ([small_file] ++ [empty_file])
                      ++ map DArrayBuffer cs) (@initial Browser.api) in
        receivedFiles receiver' = receivedFiles (@initial Browser.api)
        \/ exists k : nat,
             receivedFiles receiver'
             = receivedFiles (@initial Browser.api)
               ++ [{| rf_name := file_name empty_file;
                      rf_size := file_size empty_file;
                      rf_mimeType := file_type empty_file;
                      rf_data := List.concat (firstn k cs) |}]).
Proof.
  exact (handleSendFiles_announces_all_first home_ready
           {| readyState := Open; sent := [] |} [small_file] empty_file
           [1%nat; 0%nat; 1%nat] initial eq_refl eq_refl eq_refl eq_refl).
Defined.

Lemma handleSendFiles_not_ready_witness :
  fst (handleSendFiles home_waiting) = home_waiting
  /\ Forall (fun reader => reader = None) (snd (handleSendFiles home_waiting)).
Proof.
  apply handleSendFiles_not_ready.
  intros ch Hch. injection Hch as <-. discriminate.
Defined.

Lemma second_join_leaks_timer_witness :
  let st2 := snd (joinSession "ZZ99ZZ"
                    (snd (joinSession "AB12CD" (@initial Browser.api)))) in
  pollingInterval st2 = Some (Pos.succ (nextTimer (@initial Browser.api)))
  /\ In (nextTimer (@initial Browser.api)) (timers st2)
  /\ In (nextTimer (@initial Browser.api)) (timers (cleanup st2))
  /\ ~ In (Pos.succ (nextTimer (@initial Browser.api)))
         (timers (cleanup st2)).
Proof.
  apply (second_join_leaks_timer "AB12CD" "ZZ99ZZ" initial); discriminate.
Defined.

Lemma send_during_receive_witness :
  let st' := snd (sendFile small_file busy_both_ways) in
  receivingFile st'
  = Some {| rx_name := "first.txt"; rx_size := 10;
            rx_mimeType := "text/plain"; receivedSize := 4;
            chunks := [[x01; x02; x03; x04]] |}
  /\ receivedFiles st' = receivedFiles busy_both_ways
  /\ transferProgress st' = None
  /\ receivedFiles (receiveAll (map DArrayBuffer ([] ++ [six_bytes])) st')
     = receivedFiles busy_both_ways
       ++ [{| rf_name := "first.txt";
              rf_size := 10;
              rf_mimeType := "text/plain";
              rf_data := List.concat ([[x01; x02; x03; x04]] ++ []
                                      ++ [six_bytes]) |}].
Proof.
  apply (send_during_receive small_file busy_both_ways
           {| readyState := Open; sent := [] |}
           {| rx_name := "first.txt"; rx_size := 10;
              rx_mimeType := "text/plain"; receivedSize := 4;
              chunks := [[x01; x02; x03; x04]] |} [] six_bytes).
  - reflexivity.
  - reflexivity.
  - reflexivity.
  - intros Hinit. exfalso. apply Hinit. reflexivity.
  - simpl. lia.
Defined.

Lemma no_session_no_post_witness :
  onicecandidate true (Some "candidate:1"%string) (@initial Browser.api)
  = initial
  /\ relayRequests (handleAll true [offer_message; candidate_message]
                      (@initial Browser.api))
     = relayRequests (@initial Browser.api).
Proof.
  apply no_session_no_post. left. reflexivity.
Defined.

Lemma handleJoinSession_joins_unless_blank_witness :
  let h' := handleJoinSession home_joining in
  sessionId (hook h') = Some "AB12C "%string
  /\ isConnecting (hook h') = true
  /\ pollingInterval (hook h') = Some (nextTimer (hook home_joining))
  /\ timers (hook h')
     = nextTimer (hook home_joining) :: timers (hook home_joining)
  /\ files h' = files home_joining /\ shareCode h' = shareCode home_joining
  /\ joinCode h' = joinCode home_joining.
Proof.
  apply (proj2 (handleJoinSession_joins_unless_blank home_joining)).
  reflexivity.
Defined.

Lemma select_then_remove_witness :
  removeFile "id-3" (handleFileSelect [("id-3"%string, small_file)] home_ready)
  = home_ready.
Proof.
  apply select_then_remove.
  simpl. intros [H | [H | []]]; discriminate H.
Defined.

Lemma removeFile_removes_one_witness :
  files (removeFile (fi_id first_item) home_ready) = [] ++ [second_item]
  /\ NoDup (map fi_id (files (removeFile (fi_id first_item) home_ready)))
  /\ hook (removeFile (fi_id first_item) home_ready) = hook home_ready.
Proof.
  apply (removeFile_removes_one first_item [] [second_item] home_ready).
  - simpl. constructor.
    + simpl. intros [H | []]. discriminate H.
    + constructor; [intros [] | constructor].
  - reflexivity.
Defined.

Lemma handleFileSelect_appends_witness :
  let h' := handleFileSelect [("id-3"%string, small_file)] home_ready in
  firstn (List.length (files home_ready)) (files h') = files home_ready
  /\ map fi_file (skipn (List.length (files home_ready)) (files h'))
     = map snd [("id-3"%string, small_file)]
  /\ NoDup (map fi_id (files h')).
Proof.
  apply (handleFileSelect_appends [("id-3"%string, small_file)] home_ready).
  - simpl. constructor.
    + simpl. intros [H | []]. discriminate H.
    + constructor; [intros [] | constructor].
  - simpl. constructor; [intros [] | constructor].
  - simpl. intros id [<- | []] [H | [H | []]]; discriminate H.
Defined.

Lemma createSession_failure_witness :
  let st' := snd (createSession None true (@initial Browser.api)) in
  error st' = Some "Failed to create session"%string
  /\ isConnecting st' = false
  /\ timers st' = timers (@initial Browser.api)
  /\ pollingInterval st' = pollingInterval (@initial Browser.api)
  /\ relayRequests st' = relayRequests (@initial Browser.api)
  /\ st' = setIsConnecting false
             (setError (Some "Failed to create session"%string) initial).
Proof.
  apply (createSession_failure None true initial). reflexivity.
Defined.

Lemma createSession_success_witness :
  let st' := snd (createSession (Some "AB12CD"%string) false
                    (@initial Browser.api)) in
  Some "AB12CD"%string = Some "AB12CD"%string
  /\ sessionId st' = Some "AB12CD"%string
  /\ isConnecting st' = true
  /\ dataChannel st' = Some {| readyState := Connecting; sent := [] |}
  /\ peerConnection st' <> None
  /\ (exists offer : string,
        relayRequests st'
        = relayRequests (@initial Browser.api)
          ++ [PostSignal "AB12CD"
                {| message_type := "offer";
                   payload := JSON_stringify offer |}])
     /\ pollingInterval st' = Some (nextTimer (@initial Browser.api))
     /\ timers st'
        = nextTimer (@initial Browser.api) :: timers (@initial Browser.api)
     /\ error st' = Some "Failed to send signaling message"%string.
Proof.
  exact (createSession_success (Some "AB12CD"%string) false initial "AB12CD"
           eq_refl).
Defined.

Lemma createSession_then_send_witness :
  let st' := snd (createSession (Some "AB12CD"%string) true
                    (@initial Browser.api)) in
  sendFile small_file st' = (Some (Error "Data channel not ready"), st')
  /\ isConnected (channel_onopen st') = true
  /\ isConnecting (channel_onopen st') = false
  /\ fst (sendFile small_file (channel_onopen st')) = None
  /\ dataChannel (snd (sendFile small_file (channel_onopen st')))
     = Some {| readyState := Open;
               sent := metadata_message small_file
                       :: map DArrayBuffer
                            (file_chunks (file_contents small_file) 0) |}.
Proof.
  apply (createSession_then_send (Some "AB12CD"%string) true initial
           "AB12CD" small_file).
  reflexivity.
Defined.


Lemma error_is_sticky_witness :
  error (receiveAll stray_messages connection_failed)
  = error connection_failed
  /\ error (snd (sendFile small_file connection_failed))
     = error connection_failed
  /\ error (fst (run_events [0%nat] [None] connection_failed))
     = error connection_failed
  /\ error (cleanup connection_failed) = error connection_failed
  /\ error (channel_onopen connection_failed) = error connection_failed
  /\ error (onconnectionstatechange StateConnected connection_failed) <> None
  /\ error (polling_tick (Some [offer_message]) true connection_failed)
     <> None
  /\ error (onicecandidate true (Some "candidate:1"%string) connection_failed)
     <> None.
Proof.
  apply (error_is_sticky connection_failed stray_messages small_file
           [0%nat] [None] StateConnected (Some [offer_message]) true
           (Some "candidate:1"%string)).
  discriminate.
Defined.

Lemma handleSendFiles_single_file_witness :
  let h := removeFile "id-2" home_ready in
  let events := repeat 0%nat (S (Z.to_nat (file_size (fi_file first_item)))) in
  let final := fst (run_events events (snd (handleSendFiles h))
                      (hook (fst (handleSendFiles h)))) in
  exists frames : list ChannelData,
    dataChannel final
    = Some {| readyState := Open; sent := [] ++ frames |}
    /\ transferProgress final = None
    /\ receivedFiles (receiveAll frames receiver_midway)
       = receivedFiles receiver_midway
         ++ [{| rf_name := file_name (fi_file first_item);
                rf_size := file_size (fi_file first_item);
                rf_mimeType := file_type (fi_file first_item);
                rf_data := file_contents (fi_file first_item) |}].
Proof.
  exact (handleSendFiles_single_file (removeFile "id-2" home_ready)
           {| readyState := Open; sent := [] |} first_item receiver_midway
           eq_refl eq_refl eq_refl eq_refl).
Defined.

